(** * DocArray: the typed container of documents

    A shallow embedding of [docarray/array/array/array.py] and the
    properties of its validation, list primitives and column access.

    Python objects live in a heap and are referred to by address, so that
    [setattr] on a document is seen through every reference to it.  A method
    of [DocArray] is a computation over a store made of that heap and of
    [self]; an exception ends the computation and keeps the store as it was
    when it was raised. *)

From Stdlib Require Import ZArith Lia Sorting.Sorted.
From stdpp Require Import base option list gmap strings sorting.

Set Warnings "-register-all".

Open Scope Z_scope.

(** ** Values, objects and classes *)

Definition addr := nat.
Bind Scope nat_scope with addr.
Definition cname := string.

(** The values a container can be handed: [None], numbers, strings, a [dict]
    with string keys, or a reference to an object. *)
Inductive value :=
| VNone
| VInt (z : Z)
| VStr (s : string)
| VDict (kw : list (string * value))
| VRef (a : addr).

(** An object: its class and its [__dict__]. *)
Record obj := Obj {
  obj_class : cname;
  obj_dict : gmap string value
}.

(** What [_get_field_type] can answer: a [typing.Union], a class, or a typing
    construct that is not an instance of [type] (such as [List[int]]). *)
Inductive field_type :=
| TUnion (alts : list cname)
| TClass (c : cname)
| TGeneric (repr : string).

(** What the file needs to know of a class: its [__mro__] after the class
    itself, the answer of its [_get_field_type], and what its constructor
    makes of keyword arguments: the [__dict__] of the new object, or [None]
    where the constructor rejects them. *)
Record class_decl := ClassDecl {
  cls_ancestors : list cname;
  cls_field_type : string -> option field_type;
  cls_init : list (string * value) -> option (gmap string value)
}.

(** ** Exceptions *)

(** The pieces of an f-string: literal text, [str] of a value, [str] of a
    class. *)
Inductive fragment :=
| FLit (s : string)
| FStr (v : value)
| FClass (c : cname).

Inductive exn :=
| ValueError (msg : list fragment)
| ValidationError (c : cname)
| SchemaError (c : cname)
| AttributeError (name : string)
| KeyError (key : string)
| IndexError
| OverflowError
| TypeError.

Inductive outcome (A : Type) :=
| Returned (a : A)
| Raised (e : exn).
Arguments Returned {A} a.
Arguments Raised {A} e.

(** ** The container and the store *)

(** A container class: the schema it is bound to, under the two names the
    source reads it by ([self._document_type] in validation,
    [self.__class__.document_type] in column access). *)
Record DocArrayClass := MkClass {
  _document_type : cname;
  document_type : cname
}.

(** A [DocArray]: its class and [self.data]. *)
Record DocArray := MkDocArray {
  __class__ : DocArrayClass;
  data : list value
}.

Record store := Store {
  heap : gmap addr obj;
  self : DocArray
}.

Definition M (A : Type) : Type := store -> store * outcome A.

Definition ret {A} (a : A) : M A := fun s => (s, Returned a).

Definition raise {A} (e : exn) : M A := fun s => (s, Raised e).

Definition bind {A B} (m : M A) (k : A -> M B) : M B :=
  fun s => match m s with
           | (s', Returned a) => k a s'
           | (s', Raised e) => (s', Raised e)
           end.

Notation "x <- m ;; k" := (bind m (fun x => k))
  (at level 100, m at next level, right associativity).
Notation "m ;;; k" := (bind m (fun _ => k))
  (at level 100, right associativity).

Definition get_self : M DocArray := fun s => (s, Returned (self s)).
Definition get_heap : M (gmap addr obj) := fun s => (s, Returned (heap s)).
Definition put_heap (h : gmap addr obj) : M unit :=
  fun s => (Store h (self s), Returned tt).
Definition put_data (l : list value) : M unit :=
  fun s => (Store (heap s) (MkDocArray (__class__ (self s)) l), Returned tt).

(** Runs a method on another receiver, and gives back that receiver as the
    method left it; the caller's [self] is in place again afterwards, also
    when the method raises. *)
Definition with_self {A} (o : DocArray) (m : M A) : M (A * DocArray) :=
  fun s => match m (Store (heap s) o) with
           | (s', Returned a) =>
               (Store (heap s') (self s), Returned (a, self s'))
           | (s', Raised e) => (Store (heap s') (self s), Raised e)
           end.

(** An iterable argument: a list, or a generator whose elements are computed
    one at a time as the consumer asks for them. *)
Inductive iterable :=
| IList (l : list value)
| IGen (g : list (M value)).

Definition iter (it : iterable) : list (M value) :=
  match it with
  | IList l => map ret l
  | IGen g => g
  end.

(** [bool(x)] of an iterable: a list is true when it is not empty, a
    generator always. *)
Definition truthy (it : iterable) : bool :=
  match it with
  | IList [] => false
  | _ => true
  end.

(** What a column read gives back: a plain list or a container. *)
Inductive column :=
| ColList (l : list value)
| ColArray (da : DocArray).

Definition column_items (c : column) : list value :=
  match c with
  | ColList l => l
  | ColArray da => data da
  end.

(** ** Python primitives *)

Definition is_dict (v : value) : bool :=
  match v with
  | VDict _ => true
  | _ => false
  end.

Definition type_of (h : gmap addr obj) (v : value) : option cname :=
  match v with
  | VNone => Some "NoneType"
  | VInt _ => Some "int"
  | VStr _ => Some "str"
  | VDict _ => Some "dict"
  | VRef a => obj_class <$> h !! a
  end.

(** [getattr(v, name)]: the entry of the object's [__dict__]; a value that
    is not an object has no such entry. *)
Definition py_getattr (v : value) (name : string) : M value :=
  h <- get_heap ;;
  match v with
  | VRef a =>
      match h !! a with
      | Some o =>
          match obj_dict o !! name with
          | Some x => ret x
          | None => raise (AttributeError name)
          end
      | None => raise (AttributeError name)
      end
  | _ => raise (AttributeError name)
  end.

(** A list comprehension [[f(x) for x in l]]. *)
Fixpoint list_comp {A B} (f : A -> M B) (l : list A) : M (list B) :=
  match l with
  | [] => ret []
  | x :: l' => y <- f x ;; ys <- list_comp f l' ;; ret (y :: ys)
  end.

(** The bounds of a C [ssize_t], which a list takes its indices as. *)
Definition ssize_max : Z := 9223372036854775807.
Definition ssize_min : Z := -9223372036854775808.

(** The index can be passed to a method of list [l] as a [ssize_t].  A list
    is never longer than [ssize_max], so that an index within the list
    always can; the test says so for a list of any length. *)
Definition fits_ssize (i : Z) (l : list value) : bool :=
  ((ssize_min <=? i) && (i <=? ssize_max))
  || ((- Z.of_nat (length l) <=? i) && (i <=? Z.of_nat (length l))).

(** [l.insert(i, x)] of a Python list: a negative index counts from the end,
    and an index out of range is clamped; [None] where the index does not
    fit a [ssize_t], for which the list raises [OverflowError]. *)
Definition list_insert_at (i : Z) (x : value) (l : list value) :
  option (list value) :=
  if fits_ssize i l then
    let n := Z.of_nat (length l) in
    let j := if i <? 0 then Z.max (i + n) 0 else Z.min i n in
    Some (take (Z.to_nat j) l ++ x :: drop (Z.to_nat j) l)
  else None.

(** The position a Python list index denotes, if it is in range. *)
Definition list_index (i : Z) (l : list value) : option nat :=
  let n := Z.of_nat (length l) in
  let j := if i <? 0 then i + n else i in
  if (j <? 0) || (n <=? j) then None else Some (Z.to_nat j).

(** A stable sort on keys, by insertion from the right. *)
Fixpoint insert_by_key (kx : Z * value) (l : list (Z * value)) :
  list (Z * value) :=
  match l with
  | [] => [kx]
  | ky :: l' =>
      if fst kx <=? fst ky then kx :: ky :: l' else ky :: insert_by_key kx l'
  end.

Definition sort_by_key (l : list (Z * value)) : list (Z * value) :=
  foldr insert_by_key [] l.

(** ** The methods of [DocArray] *)

Section DocArray.

(** The classes of the program. *)
Variable CT : gmap cname class_decl.

(** [==] on stored values, which [list.remove] compares with. *)
Variable py_eq : gmap addr obj -> value -> value -> bool.

(** [setattr(doc, name, x)], which the classes of the documents define. *)
Variable setattr : value -> string -> value -> M unit.

Definition mro (c : cname) : list cname :=
  c :: match CT !! c with
       | Some d => cls_ancestors d
       | None => ["object"]
       end.

Definition issubclass (c d : cname) : bool := bool_decide (d ∈ mro c).

Definition isinstance (h : gmap addr obj) (v : value) (c : cname) : bool :=
  match type_of h v with
  | Some t => issubclass t c
  | None => false
  end.

(** The call of class [T] on the entries of [kw] as keyword arguments; the
    new object gets an address no object has. *)
Definition construct (T : cname) (kw : list (string * value)) : M value :=
  match CT !! T with
  | Some d =>
      match cls_init d kw with
      | Some dict =>
          h <- get_heap ;;
          let a := fresh (dom h) in
          put_heap (<[a := Obj T dict]> h) ;;;
          ret (VRef a)
      | None => raise (ValidationError T)
      end
  | None => raise TypeError
  end.

(** [T._get_field_type(field)]. *)
Definition _get_field_type (T : cname) (field : string) : M field_type :=
  match CT !! T with
  | Some d =>
      match cls_field_type d field with
      | Some ft => ret ft
      | None => raise (KeyError field)
      end
  | None => raise (AttributeError "_get_field_type")
  end.

(** Modelled from the spec: [__class_getitem__] of the container class
    (section 4.1): specializing with a record type yields a class whose
    bound schema is that type; with anything else it fails. *)
Definition __class_getitem__ (item : cname) : M DocArrayClass :=
  if issubclass item "BaseDoc"
  then ret (MkClass item item)
  else raise (SchemaError item).

Definition _validate_one_doc (doc : value) : M value :=
  self <- get_self ;;
  h <- get_heap ;;
  let T := _document_type (__class__ self) in
  match doc with
  | VDict kw => construct T kw
  | _ =>
      if negb (issubclass T "AnyDoc") && negb (isinstance h doc T)
      then raise (ValueError [FStr doc; FLit " is not a "; FClass T])
      else ret doc
  end.

(** A loop [for v in self._validate_docs(docs): acc = body(acc, v)].  The
    generator is resumed once per round: it takes the next element of
    [docs], validates it and yields it to the body. *)
Fixpoint for_validate_docs {A} (docs : list (M value))
    (body : A -> value -> M A) (acc : A) : M A :=
  match docs with
  | [] => ret acc
  | next :: rest =>
      doc <- next ;;
      v <- _validate_one_doc doc ;;
      acc' <- body acc v ;;
      for_validate_docs rest body acc'
  end.

(** [list(self._validate_docs(docs))]. *)
Definition list_validate_docs (docs : list (M value)) : M (list value) :=
  for_validate_docs docs (fun acc v => ret (acc ++ [v])) [].

(** [self.data.append(v)]. *)
Definition data_append (v : value) : M unit :=
  self <- get_self ;;
  put_data (data self ++ [v]).

Definition __init__ (docs : option iterable) : M unit :=
  l <- match docs with
       | Some it => if truthy it then list_validate_docs (iter it) else ret []
       | None => ret []
       end ;;
  put_data l.

(** [cls(docs)]: a new container of class [cls]. *)
Definition new_DocArray (cls : DocArrayClass) (docs : option iterable) :
  M DocArray :=
  r <- with_self (MkDocArray cls []) (__init__ docs) ;;
  ret (snd r).

Definition __len__ : M Z :=
  self <- get_self ;;
  ret (Z.of_nat (length (data self))).

Definition append (doc : value) : M unit :=
  v <- _validate_one_doc doc ;;
  data_append v.

(** [self.data.extend(self._validate_docs(docs))]: [list.extend] appends
    each element as the generator yields it. *)
Definition extend (docs : iterable) : M unit :=
  for_validate_docs (iter docs) (fun _ v => data_append v) tt.

Definition insert (i : Z) (doc : value) : M unit :=
  v <- _validate_one_doc doc ;;
  self <- get_self ;;
  match list_insert_at i v (data self) with
  | Some l => put_data l
  | None => raise OverflowError
  end.

(** [self.data.pop(i)]: the index is first taken as a [ssize_t], then
    checked against the list. *)
Definition pop (i : Z) : M value :=
  self <- get_self ;;
  if fits_ssize i (data self) then
    match list_index i (data self) with
    | Some j =>
        match data self !! j with
        | Some v => put_data (delete j (data self)) ;;; ret v
        | None => raise IndexError
        end
    | None => raise IndexError
    end
  else raise OverflowError.

Fixpoint remove_first (h : gmap addr obj) (x : value) (l : list value) :
  option (list value) :=
  match l with
  | [] => None
  | y :: l' =>
      if py_eq h y x then Some l' else cons y <$> remove_first h x l'
  end.

Definition remove (x : value) : M unit :=
  self <- get_self ;;
  h <- get_heap ;;
  match remove_first h x (data self) with
  | Some l => put_data l
  | None => raise (ValueError [FLit "list.remove(x): x not in list"])
  end.

Definition reverse : M unit :=
  self <- get_self ;;
  put_data (rev (data self)).

(** [self.data.sort(key=key, reverse=rev)]: the keys are computed first, in
    the order of the list; a reverse sort reverses the elements with their
    keys, sorts and reverses again, which keeps it stable. *)
Definition sort (key : value -> M Z) (reversed : bool) : M unit :=
  self <- get_self ;;
  keys <- list_comp key (data self) ;;
  let pairs := zip keys (data self) in
  let sorted :=
    if reversed then rev (sort_by_key (rev pairs)) else sort_by_key pairs in
  put_data (map snd sorted).

(** Modelled from the spec: [__getitem__] on an integer (section 4.4):
    direct positional access, negative indices counting from the end, out
    of range an [IndexError]. *)
Definition __getitem__ (i : Z) : M value :=
  self <- get_self ;;
  match list_index i (data self) with
  | Some j =>
      match data self !! j with
      | Some v => ret v
      | None => raise IndexError
      end
  | None => raise IndexError
  end.

Definition _get_data_column (field : string) : M column :=
  self <- get_self ;;
  field_type <- _get_field_type (document_type (__class__ self)) field ;;
  match field_type with
  | TClass c =>
      if issubclass c "BaseDoc"
      then
        cls <- __class_getitem__ c ;;
        da <- new_DocArray cls
                (Some (IGen (map (fun doc => py_getattr doc field)
                                 (data self)))) ;;
        ret (ColArray da)
      else
        l <- list_comp (fun doc => py_getattr doc field) (data self) ;;
        ret (ColList l)
  | _ =>
      l <- list_comp (fun doc => py_getattr doc field) (data self) ;;
      ret (ColList l)
  end.

Fixpoint for_setattr (pairs : list (value * value)) (field : string) :
  M unit :=
  match pairs with
  | [] => ret tt
  | (doc, value) :: rest =>
      setattr doc field value ;;;
      for_setattr rest field
  end.

Definition _set_data_column (field : string) (values : column) : M unit :=
  self <- get_self ;;
  for_setattr (zip (data self) (column_items values)) field.

(** *** Sequences of list operations *)

Inductive op :=
| Append (doc : value)
| Extend (docs : iterable)
| Insert (i : Z) (doc : value)
| Pop (i : Z)
| Remove (x : value)
| Reverse
| Sort (key : value -> M Z) (reversed : bool).

Definition run_op (o : op) : M unit :=
  match o with
  | Append doc => append doc
  | Extend docs => extend docs
  | Insert i doc => insert i doc
  | Pop i => pop i ;;; ret tt
  | Remove x => remove x
  | Reverse => reverse
  | Sort key reversed => sort key reversed
  end.

Fixpoint run_ops (ops : list op) : M unit :=
  match ops with
  | [] => ret tt
  | o :: rest => run_op o ;;; run_ops rest
  end.

(** *** Predicates the properties are stated with *)



End DocArray.

(** Every object of [h] is in [h'] with the class it had. *)
Definition classes_kept (h h' : gmap addr obj) : Prop :=
  forall a o, h !! a = Some o ->
    exists o', h' !! a = Some o' /\ obj_class o' = obj_class o.

(** A computation that leaves [self] alone and keeps every object and its
    class: what an element of a generator or a sort key may do. *)
Definition benign {A} (m : M A) : Prop :=
  forall s s' r, m s = (s', r) ->
    self s' = self s /\ classes_kept (heap s) (heap s').

Definition benign_op (o : op) : Prop :=
  match o with
  | Extend (IGen g) => Forall benign g
  | Sort key _ => forall v, benign (key v)
  | _ => True
  end.

(** An assignment that touches only its target: it leaves the container
    alone and, of the objects there are, changes at most the one assigned
    to. *)
Definition local_setattr (setattr : value -> string -> value -> M unit) :
  Prop :=
  forall d f v s s' r, setattr d f v s = (s', r) ->
    self s' = self s /\
    forall a o, heap s !! a = Some o -> d <> VRef a -> heap s' !! a = Some o.

(** *** Equal values *)









Definition benign_arg (docs : option iterable) : Prop :=
  match docs with
  | Some (IGen g) => Forall benign g
  | _ => True
  end.

(** The values of [l] are instances of [T]. *)
Definition instances_of (CT : gmap cname class_decl) (T : cname)
    (h : gmap addr obj) (l : list value) : Prop :=
  Forall (fun v => isinstance CT h v T = true) l.

(** The container is of a class bound to [T] and holds instances of [T]. *)
Definition inv_of (CT : gmap cname class_decl) (T : cname) (s : store) : Prop :=
  _document_type (__class__ (self s)) = T /\
  instances_of CT T (heap s) (data (self s)).

(** The message of an exception names class [c]. *)
Definition names_class (msg : list fragment) (c : cname) : Prop :=
  FClass c ∈ msg.

(** The message of an exception shows value [v]. *)
Definition shows_value (msg : list fragment) (v : value) : Prop :=
  FStr v ∈ msg.

(** ** A program to run the methods on *)

Module Sample.

Definition doc_ancestors : list cname := ["BaseDoc"; "BaseModel"; "object"].

Definition init_any (kw : list (string * value)) :
  option (gmap string value) :=
  Some (list_to_map kw).

(** [Image] requires a string [url]. *)
Definition init_image (kw : list (string * value)) :
  option (gmap string value) :=
  let d : gmap string value := list_to_map kw in
  match d !! "url" with
  | Some (VStr _) => Some d
  | _ => None
  end.

Definition image_fields (f : string) : option field_type :=
  if String.eqb f "url" then Some (TClass "str")
  else if String.eqb f "tensor" then Some (TUnion ["NdArray"; "TorchTensor"])
  else None.

(** [Page] has a title and a cover, which is an [Image]. *)
Definition page_fields (f : string) : option field_type :=
  if String.eqb f "title" then Some (TClass "str")
  else if String.eqb f "cover" then Some (TClass "Image")
  else None.

(** The classes: [AnyDoc] takes any keywords and reports [AnyDoc] as the
    type of every field. *)
Definition CT : gmap cname class_decl :=
  list_to_map
    [("BaseDoc", ClassDecl ["BaseModel"; "object"] (fun _ => None) init_any);
     ("AnyDoc",
       ClassDecl doc_ancestors (fun _ => Some (TClass "AnyDoc")) init_any);
     ("Image", ClassDecl doc_ancestors image_fields init_image);
     ("Page", ClassDecl doc_ancestors page_fields init_any)].

(** The assignment of a class that stores the value as it is. *)
Definition plain_setattr (v : value) (name : string) (x : value) : M unit :=
  h <- get_heap ;;
  match v with
  | VRef a =>
      match h !! a with
      | Some o =>
          put_heap (<[a := Obj (obj_class o) (<[name := x]> (obj_dict o))]> h)
      | None => raise (AttributeError name)
      end
  | _ => raise (AttributeError name)
  end.


(** Identity of objects, equality of numbers and strings. *)
Definition py_eq (h : gmap addr obj) (x y : value) : bool :=
  match x, y with
  | VRef a, VRef b => bool_decide (a = b)
  | VInt a, VInt b => bool_decide (a = b)
  | VStr a, VStr b => bool_decide (a = b)
  | VNone, VNone => true
  | _, _ => false
  end.

Definition image (url : string) : obj :=
  Obj "Image" {[ "url" := VStr url ]}.

Definition page (title : string) (cover : addr) : obj :=
  Obj "Page" {[ "title" := VStr title; "cover" := VRef cover ]}.

Definition objects : gmap addr obj :=
  {[ 1%nat := image "a.png"; 2%nat := image "b.png";
     3%nat := page "one" 1; 4%nat := page "two" 2 ]}.

Definition images (l : list value) : store :=
  Store objects (MkDocArray (MkClass "Image" "Image") l).

Definition pages (l : list value) : store :=
  Store objects (MkDocArray (MkClass "Page" "Page") l).

Definition anys (l : list value) : store :=
  Store objects (MkDocArray (MkClass "AnyDoc" "AnyDoc") l).

(** A sort key: the address of a document. *)
Definition by_address (v : value) : M Z :=
  match v with
  | VRef a => ret (Z.of_nat a)
  | _ => raise TypeError
  end.

Definition some_ops : list op :=
  [Append (VRef 2); Reverse; Insert 0 (VRef 1); Pop (-1);
   Sort by_address false; Extend (IList [VRef 2; VRef 1]);
   Remove (VRef 1); Sort by_address true].

(** A total sort key: the address of a document, 0 for other values. *)
Definition rank (v : value) : Z :=
  match v with
  | VRef a => Z.of_nat a
  | _ => 0
  end.

Definition by_rank (v : value) : M Z := ret (rank v).

Definition a_mapping : value := VDict [("url", VStr "c.png")].

Definition failing_ops : list op :=
  [Append (VRef 2); Extend (IList [VRef 1; VInt 0; VRef 2]); Reverse].

End Sample.

(** ** Reasoning about computations *)

Ltac unfold_M :=
  unfold bind, ret, raise, get_self, get_heap, put_heap, put_data in *.

Lemma bind_returned {A B} (m : M A) (k : A -> M B) s s1 a :
  m s = (s1, Returned a) -> bind m k s = k a s1.
Proof. intros H. unfold bind. by rewrite H. Qed.

Lemma bind_raised {A B} (m : M A) (k : A -> M B) s s1 e :
  m s = (s1, Raised e) -> bind m k s = (s1, Raised e).
Proof. intros H. unfold bind. by rewrite H. Qed.

Lemma bind_inv {A B} (m : M A) (k : A -> M B) s s2 r :
  bind m k s = (s2, r) ->
  (exists s1 a, m s = (s1, Returned a) /\ k a s1 = (s2, r)) \/
  (exists e, m s = (s2, Raised e) /\ r = Raised e).
Proof.
  unfold bind. destruct (m s) as [s1 [a|e]]; intros H.
  - left. eauto.
  - right. inversion H; subst. eauto.
Qed.

Lemma classes_kept_refl h : classes_kept h h.
Proof. intros a o H. eauto. Qed.

Lemma classes_kept_trans h1 h2 h3 :
  classes_kept h1 h2 -> classes_kept h2 h3 -> classes_kept h1 h3.
Proof.
  intros H12 H23 a o H.
  destruct (H12 a o H) as (o2 & H2 & E2).
  destruct (H23 a o2 H2) as (o3 & H3 & E3).
  exists o3. split; [done | congruence].
Qed.

Lemma classes_kept_subseteq (h h' : gmap addr obj) :
  h ⊆ h' -> classes_kept h h'.
Proof.
  intros Hsub a o H. exists o. split; [|done].
  by eapply lookup_weaken.
Qed.

Lemma heap_alloc_subseteq (h : gmap addr obj) (o : obj) :
  h ⊆ <[fresh (dom h) := o]> h.
Proof.
  apply insert_subseteq, not_elem_of_dom, is_fresh.
Qed.

Section Validation.

Context (CT : gmap cname class_decl).

Lemma issubclass_refl c : issubclass CT c c = true.
Proof.
  unfold issubclass, mro. apply bool_decide_eq_true. apply list_elem_of_here.
Qed.

Lemma type_of_kept h h' v t :
  classes_kept h h' -> type_of h v = Some t -> type_of h' v = Some t.
Proof.
  intros Hk. destruct v; simpl; try done.
  destruct (h !! a) as [o|] eqn:E; simpl; [|done].
  intros [= <-]. destruct (Hk a o E) as (o' & -> & Ho). simpl. by rewrite Ho.
Qed.

Lemma isinstance_kept h h' v c :
  classes_kept h h' -> isinstance CT h v c = true ->
  isinstance CT h' v c = true.
Proof.
  intros Hk. unfold isinstance.
  destruct (type_of h v) as [t|] eqn:E; [|done].
  by rewrite (type_of_kept _ _ _ _ Hk E).
Qed.

(** The constructor either allocates one object of the class, at a new
    address, or raises and leaves the store as it was. *)
Lemma construct_spec T kw s s' r :
  construct CT T kw s = (s', r) ->
  (exists dict,
      r = Returned (VRef (fresh (dom (heap s)))) /\
      s' = Store (<[fresh (dom (heap s)) := Obj T dict]> (heap s)) (self s))
  \/ (exists e, r = Raised e /\ s' = s).
Proof.
  unfold construct.
  destruct (CT !! T) as [d|]; [|intros [= <- <-]; right; eauto].
  destruct (cls_init d kw) as [dict|]; [|intros [= <- <-]; right; eauto].
  unfold_M. simpl. intros [= <- <-]. left. eauto.
Qed.

Lemma validate_dict kw s :
  _validate_one_doc CT (VDict kw) s =
  construct CT (_document_type (__class__ (self s))) kw s.
Proof. reflexivity. Qed.

Lemma validate_pass doc s :
  is_dict doc = false ->
  issubclass CT (_document_type (__class__ (self s))) "AnyDoc" = true \/
  isinstance CT (heap s) doc (_document_type (__class__ (self s))) = true ->
  _validate_one_doc CT doc s = (s, Returned doc).
Proof.
  intros Hd Hok. unfold _validate_one_doc. unfold_M.
  destruct doc; try done; destruct Hok as [-> | ->]; simpl;
    rewrite ?andb_false_r; done.
Qed.

Lemma validate_fail doc s :
  is_dict doc = false ->
  issubclass CT (_document_type (__class__ (self s))) "AnyDoc" = false ->
  isinstance CT (heap s) doc (_document_type (__class__ (self s))) = false ->
  _validate_one_doc CT doc s =
  (s, Raised (ValueError [FStr doc; FLit " is not a ";
                          FClass (_document_type (__class__ (self s)))])).
Proof.
  intros Hd H1 H2. unfold _validate_one_doc. unfold_M.
  destruct doc; try done; rewrite H1, H2; done.
Qed.

(** Whatever validation does, it leaves [self] alone and only adds to the
    heap; when it raises the store is as before; what it returns under a
    concrete schema is an instance of the schema. *)
Lemma validate_spec doc s s' r :
  _validate_one_doc CT doc s = (s', r) ->
  self s' = self s /\ heap s ⊆ heap s' /\
  (forall e, r = Raised e -> s' = s) /\
  (forall v, r = Returned v ->
     issubclass CT (_document_type (__class__ (self s))) "AnyDoc" = false ->
     isinstance CT (heap s') v (_document_type (__class__ (self s))) = true).
Proof.
  destruct (is_dict doc) eqn:Hd.
  - destruct doc; try done. rewrite validate_dict. intros H.
    apply construct_spec in H as [(dict & -> & ->) | (e & -> & ->)]; simpl.
    + split; [done|]. split; [apply heap_alloc_subseteq|].
      split; [done|]. intros v [= <-] _.
      unfold isinstance. simpl. rewrite lookup_insert_eq. simpl.
      apply issubclass_refl.
    + repeat split; done.
  - destruct (issubclass CT (_document_type (__class__ (self s))) "AnyDoc")
      eqn:H1.
    { rewrite validate_pass by auto. intros [= <- <-].
      repeat split; try done. }
    destruct (isinstance CT (heap s) doc
                (_document_type (__class__ (self s)))) eqn:H2.
    { rewrite validate_pass by auto. intros [= <- <-].
      repeat split; try done. by intros v [= <-] _. }
    rewrite validate_fail by auto. intros [= <- <-].
    repeat split; done.
Qed.

(** *** The loop over the validating generator *)

Lemma for_validate_docs_app {A} (l1 l2 : list (M value))
    (body : A -> value -> M A) (acc : A) s :
  for_validate_docs CT (l1 ++ l2) body acc s =
  bind (for_validate_docs CT l1 body acc)
       (fun acc1 => for_validate_docs CT l2 body acc1) s.
Proof.
  revert acc s. induction l1 as [|next l1 IH]; intros acc s; simpl.
  - reflexivity.
  - unfold bind in IH |- *.
    destruct (next s) as [s1 [doc|e]]; [|done].
    destruct (_validate_one_doc CT doc s1) as [s2 [v|e]]; [|done].
    destruct (body acc v s2) as [s3 [acc'|e]]; [|done].
    apply IH.
Qed.

Lemma for_validate_docs_stops {A} (pre suf : list (M value)) (bad : M value)
    (body : A -> value -> M A) (acc acc1 : A) s s1 s2 e :
  for_validate_docs CT pre body acc s = (s1, Returned acc1) ->
  bind bad (_validate_one_doc CT) s1 = (s2, Raised e) ->
  for_validate_docs CT (pre ++ bad :: suf) body acc s = (s2, Raised e).
Proof.
  intros Hpre Hbad. rewrite for_validate_docs_app.
  rewrite (bind_returned _ _ _ _ _ Hpre). simpl.
  unfold bind in Hbad |- *.
  destruct (bad s1) as [s' [doc|e']]; [|by injection Hbad as -> ->].
  destruct (_validate_one_doc CT doc s') as [s'' [v|e']];
    [done | by injection Hbad as -> ->].
Qed.

End Validation.

Section Claims_validation.

Context (CT : gmap cname class_decl).

(** a run of data_append *)
Lemma data_append_run v s :
  data_append v s =
  (Store (heap s) (MkDocArray (__class__ (self s)) (data (self s) ++ [v])),
   Returned tt).
Proof. reflexivity. Qed.

Lemma extend_pass_through (docs : list value) s :
  issubclass CT (_document_type (__class__ (self s))) "AnyDoc" = true ->
  Forall (fun d => is_dict d = false) docs ->
  extend CT (IList docs) s =
  (Store (heap s) (MkDocArray (__class__ (self s)) (data (self s) ++ docs)),
   Returned tt).
Proof.
  intros HT Hd. unfold extend. simpl.
  revert s HT. induction Hd as [|d docs Hd _ IH]; intros s HT; simpl.
  - rewrite app_nil_r. by destruct s as [h [c l]].
  - unfold bind at 1. unfold ret at 1.
    rewrite (bind_returned _ _ _ _ _ (validate_pass CT d s Hd (or_introl HT))).
    rewrite (bind_returned _ _ _ _ _ (data_append_run d s)).
    rewrite IH by done. simpl. by rewrite <- app_assoc.
Qed.

Lemma list_validate_pass_through (docs : list value) acc s :
  issubclass CT (_document_type (__class__ (self s))) "AnyDoc" = true ->
  Forall (fun d => is_dict d = false) docs ->
  for_validate_docs CT (map ret docs) (fun acc v => ret (acc ++ [v])) acc s =
  (s, Returned (acc ++ docs)).
Proof.
  intros HT Hd.
  revert acc. induction Hd as [|d docs Hd _ IH]; intros acc; simpl.
  - by rewrite app_nil_r.
  - unfold bind at 1. unfold ret at 1.
    rewrite (bind_returned _ _ _ _ _ (validate_pass CT d s Hd (or_introl HT))).
    unfold bind at 1. unfold ret at 1.
    rewrite IH. by rewrite <- app_assoc.
Qed.

(** What [insert] does once its element has validated. *)
Lemma insert_run i doc s s1 v :
  _validate_one_doc CT doc s = (s1, Returned v) ->
  insert CT i doc s =
  match list_insert_at i v (data (self s1)) with
  | Some l =>
      (Store (heap s1) (MkDocArray (__class__ (self s1)) l), Returned tt)
  | None => (s1, Raised OverflowError)
  end.
Proof.
  intros Hv. unfold insert. rewrite (bind_returned _ _ _ _ _ Hv).
  unfold_M. by destruct (list_insert_at i v (data (self s1))).
Qed.

(** C1 (as amended): in a container whose bound schema is the
    unconstrained marker [AnyDoc], validating a value that is not a
    mapping returns it unchanged and leaves the store alone, so that
    [append], [insert], [extend] and construction store such values as
    they are ([insert] where the list puts them, unless the index does
    not fit a [ssize_t], for which the list raises [OverflowError]); a
    mapping is converted: validating it is the keyword construction of the
    schema, and what it returns is a reference to a new object, never the
    mapping. *)
Theorem C1_unconstrained_pass_through (s : store) :
  issubclass CT (_document_type (__class__ (self s))) "AnyDoc" = true ->
  (forall doc, is_dict doc = false ->
     _validate_one_doc CT doc s = (s, Returned doc) /\
     append CT doc s =
       (Store (heap s)
          (MkDocArray (__class__ (self s)) (data (self s) ++ [doc])),
        Returned tt) /\
     forall i, insert CT i doc s =
       match list_insert_at i doc (data (self s)) with
       | Some l =>
           (Store (heap s) (MkDocArray (__class__ (self s)) l), Returned tt)
       | None => (s, Raised OverflowError)
       end) /\
  (forall docs, Forall (fun d => is_dict d = false) docs ->
     extend CT (IList docs) s =
       (Store (heap s)
          (MkDocArray (__class__ (self s)) (data (self s) ++ docs)),
        Returned tt) /\
     new_DocArray CT (__class__ (self s)) (Some (IList docs)) s =
       (s, Returned (MkDocArray (__class__ (self s)) docs))) /\
  (forall kw,
     _validate_one_doc CT (VDict kw) s =
       construct CT (_document_type (__class__ (self s))) kw s /\
     forall s' v, _validate_one_doc CT (VDict kw) s = (s', Returned v) ->
       exists a, v = VRef a /\ heap s !! a = None /\
         obj_class <$> heap s' !! a =
           Some (_document_type (__class__ (self s)))).
Proof.
  intros HT. split; [|split].
  - intros doc Hd.
    pose proof (validate_pass CT doc s Hd (or_introl HT)) as Hv.
    split; [done|]. split.
    + unfold append. by rewrite (bind_returned _ _ _ _ _ Hv).
    + intros i. by rewrite (insert_run i doc s s doc Hv).
  - intros docs Hd. split; [by apply extend_pass_through|].
    unfold new_DocArray, with_self, __init__, list_validate_docs.
    unfold bind at 1.
    destruct docs as [|d docs].
    + simpl. by destruct s as [h [c l]].
    + cbn [truthy iter]. unfold bind at 1.
      rewrite (list_validate_pass_through (d :: docs) []
                 (Store (heap s) (MkDocArray (__class__ (self s)) [])))
        by done.
      simpl. by destruct s as [h [c l]].
  - intros kw. split; [apply validate_dict|].
    intros s' v H. rewrite validate_dict in H.
    apply construct_spec in H as [(dict & [= ->] & ->) | (e & [=] & _)].
    exists (fresh (dom (heap s))). split; [done|]. split.
    + apply not_elem_of_dom, is_fresh.
    + simpl. by rewrite lookup_insert_eq.
Qed.

(** C4 (as amended): under a concrete schema [T], validating a mapping
    is the keyword construction of [T] from its entries: a new object of
    class [T] whose attributes the constructor of [T] made of the entries,
    or the constructor's error; a value that is not a mapping and is an
    instance of [T] is returned unchanged; any other value that is not a
    mapping fails with a [ValueError] whose message shows the value and
    names the expected class [T]. *)
Theorem C4_validate_one_concrete (s : store) :
  let T := _document_type (__class__ (self s)) in
  issubclass CT T "AnyDoc" = false ->
  (forall kw d, CT !! T = Some d ->
     _validate_one_doc CT (VDict kw) s =
       match cls_init d kw with
       | Some dict =>
           (Store (<[fresh (dom (heap s)) := Obj T dict]> (heap s)) (self s),
            Returned (VRef (fresh (dom (heap s)))))
       | None => (s, Raised (ValidationError T))
       end /\
     heap s !! fresh (dom (heap s)) = None /\
     forall dict,
       isinstance CT (<[fresh (dom (heap s)) := Obj T dict]> (heap s))
         (VRef (fresh (dom (heap s)))) T = true) /\
  (forall doc, is_dict doc = false ->
     isinstance CT (heap s) doc T = true ->
     _validate_one_doc CT doc s = (s, Returned doc)) /\
  (forall doc, is_dict doc = false ->
     isinstance CT (heap s) doc T = false ->
     exists msg,
       _validate_one_doc CT doc s = (s, Raised (ValueError msg)) /\
       msg = [FStr doc; FLit " is not a "; FClass T] /\
       shows_value msg doc /\ names_class msg T).
Proof.
  intros T HT. split; [|split].
  - intros kw d Hd. split; [|split].
    + rewrite validate_dict. unfold construct. fold T. rewrite Hd.
      by destruct (cls_init d kw).
    + apply not_elem_of_dom, is_fresh.
    + intros dict. unfold isinstance. simpl. rewrite lookup_insert_eq.
      apply issubclass_refl.
  - intros doc Hd Hi. apply validate_pass; auto.
  - intros doc Hd Hi. eexists. split; [by apply validate_fail|].
    split; [done|]. unfold shows_value, names_class. split.
    + apply list_elem_of_here.
    + do 2 apply list_elem_of_further. apply list_elem_of_here.
Qed.

Lemma list_validate_length (l : list (M value)) acc s s1 r :
  for_validate_docs CT l (fun acc v => ret (acc ++ [v])) acc s =
    (s1, Returned r) ->
  exists vs, r = acc ++ vs /\ length vs = length l.
Proof.
  revert acc s. induction l as [|next l IH]; intros acc s; simpl.
  - intros [= <- <-]. exists []. by rewrite app_nil_r.
  - intros H.
    apply bind_inv in H as [(sa & doc & _ & H) | (e & _ & [=])].
    apply bind_inv in H as [(sb & v & _ & H) | (e & _ & [=])].
    apply bind_inv in H as [(sc & acc' & Hb & H) | (e & _ & [=])].
    injection Hb as <- <-.
    apply IH in H as (vs & -> & Hl).
    exists (v :: vs). simpl. rewrite <- app_assoc. split; [done|].
    by rewrite Hl.
Qed.

(** C6: [_validate_docs] is lazy.  When the elements before position [k]
    validate and the element at position [k] does not, consuming the
    generator validates the elements at positions 0 to [k] in order and
    raises the error of position [k]: [k] elements had been yielded, the
    store is the one the first [k] validations left, and this is so
    whatever follows position [k] in the input, so that nothing past [k]
    is produced, validated or constructed. *)
Theorem C6_validate_docs_lazy (docs : list value) (k : nat) (bad : value)
    (s s1 s2 : store) (vs : list value) (e : exn) :
  list_validate_docs CT (iter (IList (take k docs))) s = (s1, Returned vs) ->
  docs !! k = Some bad ->
  _validate_one_doc CT bad s1 = (s2, Raised e) ->
  list_validate_docs CT (iter (IList docs)) s = (s1, Raised e) /\
  length vs = k /\
  forall later : list (M value),
    list_validate_docs CT (iter (IList (take k docs)) ++ ret bad :: later) s
    = (s1, Raised e).
Proof.
  intros Hpre Hk Hbad.
  assert (s2 = s1) as ->.
  { by apply (validate_spec CT _ _ _ _ Hbad) with e. }
  assert (Hstop : forall later : list (M value),
    list_validate_docs CT (iter (IList (take k docs)) ++ ret bad :: later) s
    = (s1, Raised e)).
  { intros later. unfold list_validate_docs in *.
    eapply for_validate_docs_stops; [exact Hpre|].
    unfold bind, ret. exact Hbad. }
  split; [|split; [|exact Hstop]].
  - rewrite <- (take_drop_middle docs k bad Hk) at 1.
    simpl. rewrite map_app. simpl.
    specialize (Hstop (map ret (drop (S k) docs))). simpl in Hstop.
    rewrite <- (take_drop_middle docs k bad Hk) in Hstop at 1.
    rewrite take_app_length' in Hstop; [exact Hstop|].
    rewrite length_take. apply lookup_lt_Some in Hk. lia.
  - apply list_validate_length in Hpre as (vs' & -> & Hl). simpl.
    rewrite Hl. simpl. rewrite length_map, length_take.
    apply lookup_lt_Some in Hk. lia.
Qed.

(** What [extend] on a list has appended when it returns: one element for
    each element of the list, in order: the element itself when it is not a
    mapping, and for a mapping a new record of the bound schema. *)
Lemma extend_returned_spec (docs : list value) (s s' : store) :
  extend CT (IList docs) s = (s', Returned tt) ->
  exists vs,
    data (self s') = data (self s) ++ vs /\
    __class__ (self s') = __class__ (self s) /\
    heap s ⊆ heap s' /\
    Forall2 (fun d v =>
               (is_dict d = false -> v = d) /\
               (is_dict d = true ->
                  exists a o, v = VRef a /\ heap s !! a = None /\
                    heap s' !! a = Some o /\
                    obj_class o = _document_type (__class__ (self s))))
            docs vs.
Proof.
  unfold extend. simpl. revert s.
  induction docs as [|d docs IH]; intros s; simpl.
  - intros [= <-]. exists []. rewrite app_nil_r. repeat split; done.
  - intros H. unfold bind at 1 in H. unfold ret at 1 in H.
    apply bind_inv in H as [(s1 & v & Hv & H) | (e & _ & [=])].
    pose proof (Hv2 := Hv).
    apply validate_spec in Hv2 as (Hs1 & Hh1 & _).
    rewrite (bind_returned _ _ _ _ _ (data_append_run v s1)) in H.
    apply IH in H as (vs & Hd & Hc & Hh & HF). simpl in Hd, Hc, Hh.
    exists (v :: vs). rewrite Hd, Hc, Hs1, <- app_assoc. simpl.
    split; [done|]. split; [done|].
    split; [by transitivity (heap s1)|].
    constructor.
    + split.
      * intros Hnd.
        destruct (issubclass CT (_document_type (__class__ (self s)))
                    "AnyDoc") eqn:H1.
        { rewrite validate_pass in Hv by auto. by injection Hv as _ <-. }
        destruct (isinstance CT (heap s) d
                    (_document_type (__class__ (self s)))) eqn:H2.
        { rewrite validate_pass in Hv by auto. by injection Hv as _ <-. }
        rewrite validate_fail in Hv by auto. done.
      * intros Hdict. destruct d; try done. rewrite validate_dict in Hv.
        apply construct_spec in Hv as [(dict & [= ->] & ->) | (e & [=] & _)].
        simpl in Hh.
        eexists _, _. split; [done|].
        split; [apply not_elem_of_dom, is_fresh|].
        split; [eapply lookup_weaken; [apply lookup_insert_eq|exact Hh]|].
        done.
    + eapply Forall2_impl; [exact HF|]. simpl. intros d' v' [Hn Hdic].
      split; [done|]. intros Hd'.
      destruct (Hdic Hd') as (a & o & -> & Hnone & Ho & Hcl).
      exists a, o. split; [done|]. rewrite Hs1 in Hcl.
      split; [|done].
      destruct (heap s !! a) as [o0|] eqn:Ho0; [|done].
      rewrite (lookup_weaken _ _ _ _ Ho0 Hh1) in Hnone. done.
Qed.

(** C2 (as amended): when the elements of the input before a failing one
    validate, [extend] raises the error of the failing element, whatever
    follows it in the input, a list or a generator, and the container is
    left as extending by the elements before it leaves it.  These have been
    appended after the elements the container had, one for each and in
    order: the element itself when it is not a mapping, the new record of
    the bound schema it was converted to when it is.  The failing element
    and those after it are not appended, and no object is removed or
    changed. *)
Theorem C2_extend_keeps_validated_prefix (pre suf : list value)
    (bad : value) (s s1 s2 : store) (e : exn) :
  extend CT (IList pre) s = (s1, Returned tt) ->
  _validate_one_doc CT bad s1 = (s2, Raised e) ->
  extend CT (IList (pre ++ bad :: suf)) s = (s1, Raised e) /\
  (forall later : list (M value),
     extend CT (IGen (map ret pre ++ ret bad :: later)) s = (s1, Raised e)) /\
  exists vs,
    data (self s1) = data (self s) ++ vs /\
    __class__ (self s1) = __class__ (self s) /\
    heap s ⊆ heap s1 /\
    Forall2 (fun d v =>
               (is_dict d = false -> v = d) /\
               (is_dict d = true ->
                  exists a o, v = VRef a /\ heap s !! a = None /\
                    heap s1 !! a = Some o /\
                    obj_class o = _document_type (__class__ (self s))))
            pre vs.
Proof.
  intros Hpre Hbad.
  assert (s2 = s1) as ->.
  { by apply (validate_spec CT _ _ _ _ Hbad) with e. }
  assert (Hstop : forall later : list (M value),
            extend CT (IGen (map ret pre ++ ret bad :: later)) s
            = (s1, Raised e)).
  { intros later. unfold extend in *. simpl in *.
    eapply for_validate_docs_stops; [exact Hpre|].
    unfold bind, ret. exact Hbad. }
  split; [|split; [exact Hstop|]].
  - specialize (Hstop (map ret suf)). unfold extend in *. simpl in *.
    rewrite map_app. exact Hstop.
  - by apply extend_returned_spec.
Qed.

Lemma list_index_last (l : list value) (x : value) :
  list_index (-1) (l ++ [x]) = Some (length l).
Proof.
  unfold list_index. rewrite length_app. simpl.
  destruct (Z.ltb_spec (-1 + Z.of_nat (length l + 1)) 0); [lia|].
  destruct (Z.leb_spec (Z.of_nat (length l + 1))
              (-1 + Z.of_nat (length l + 1))); [lia|].
  simpl. f_equal. lia.
Qed.

(** C8: appending a record that is an instance of the bound schema adds
    it at the end: afterwards [C[-1]] is that record, the length is one
    more than before, and the elements the container had are where they
    were; the objects are untouched. *)
Theorem C8_append_valid_record (s : store) (a : addr) :
  isinstance CT (heap s) (VRef a)
    (_document_type (__class__ (self s))) = true ->
  exists s',
    append CT (VRef a) s = (s', Returned tt) /\
    heap s' = heap s /\
    __class__ (self s') = __class__ (self s) /\
    __getitem__ (-1) s' = (s', Returned (VRef a)) /\
    __len__ s' = (s', Returned (Z.of_nat (length (data (self s))) + 1)) /\
    (forall i v, data (self s) !! i = Some v ->
                 data (self s') !! i = Some v) /\
    data (self s') = data (self s) ++ [VRef a].
Proof.
  intros Hi. eexists. split.
  { unfold append.
    rewrite (bind_returned _ _ _ _ _
               (validate_pass CT (VRef a) s eq_refl (or_intror Hi))).
    apply data_append_run. }
  simpl. split; [done|]. split; [done|]. split; [|split; [|split]].
  - unfold __getitem__. unfold_M. cbn [self data].
    rewrite list_index_last.
    by rewrite lookup_app_r, Nat.sub_diag by lia.
  - unfold __len__. unfold_M. simpl. rewrite length_app. simpl.
    do 2 f_equal. lia.
  - intros i v Hl. by apply lookup_app_l_Some.
  - done.
Qed.

End Claims_validation.

(** ** Column access *)

Lemma py_getattr_store d f s s' r :
  py_getattr d f s = (s', r) -> s' = s.
Proof.
  unfold py_getattr. unfold_M. destruct d; try by intros [= <- _].
  destruct (heap s !! a) as [o|]; [|by intros [= <- _]].
  destruct (obj_dict o !! f); by intros [= <- _].
Qed.



Lemma list_comp_getattr_store f (l : list value) s s' r :
  list_comp (fun d => py_getattr d f) l s = (s', r) -> s' = s.
Proof.
  revert s s' r. induction l as [|d l IH]; intros s s' r; simpl.
  - by intros [= <- _].
  - intros H.
    apply bind_inv in H as [(s1 & v & Hv & H) | (e & Hv & _)];
      [|by apply py_getattr_store in Hv].
    apply py_getattr_store in Hv as ->.
    apply bind_inv in H as [(s1 & vs & Hvs & H) | (e & Hvs & _)];
      [|by apply IH in Hvs].
    apply IH in Hvs as ->. by injection H as <- _.
Qed.

Section Claims_columns.

Context (CT : gmap cname class_decl).





End Claims_columns.

Section Claims_frame.

Context (CT : gmap cname class_decl).

Lemma list_validate_getattr_frame f (l : list value) acc s s' r :
  for_validate_docs CT (map (fun d => py_getattr d f) l)
    (fun acc v => ret (acc ++ [v])) acc s = (s', r) ->
  self s' = self s /\ heap s ⊆ heap s'.
Proof.
  revert acc s. induction l as [|d l IH]; intros acc s; simpl.
  - by intros [= <- _].
  - intros H.
    apply bind_inv in H as [(s1 & v & Hv & H) | (e & Hv & _)];
      [|by apply py_getattr_store in Hv as ->].
    apply py_getattr_store in Hv as ->.
    apply bind_inv in H as [(s1 & w & Hw & H) | (e & Hw & _)];
      [|by apply validate_spec in Hw as (? & ? & _)].
    apply validate_spec in Hw as (Hs1 & Hh1 & _).
    unfold bind at 1 in H. unfold ret at 1 in H.
    apply IH in H as [Hs' Hh']. split; [congruence|].
    by transitivity (heap s1).
Qed.

(** C10: reading a column leaves the container as it was: whenever
    [get_column] returns, [self] is the same container (same class, same
    elements in the same order, the same references) and every object of
    the heap, so every stored record, is still there with the class and
    the attributes it had. *)
Theorem C10_get_column_read_only (s s' : store) (f : string) (col : column) :
  _get_data_column CT f s = (s', Returned col) ->
  self s' = self s /\
  heap s ⊆ heap s' /\
  length (data (self s')) = length (data (self s)) /\
  (forall (i : nat) a o, data (self s) !! i = Some (VRef a) ->
     heap s !! a = Some o ->
     data (self s') !! i = Some (VRef a) /\ heap s' !! a = Some o).
Proof.
  intros H.
  assert (Hmain : self s' = self s /\ heap s ⊆ heap s').
  { revert H. generalize (Returned col). intros r H.
    unfold _get_data_column in H.
    unfold bind at 1 in H. unfold get_self at 1 in H.
    assert (Hlist : forall r,
      bind (list_comp (fun doc => py_getattr doc f) (data (self s)))
           (fun l => ret (ColList l)) s = (s', r) ->
      self s' = self s /\ heap s ⊆ heap s').
    { intros r0 H0.
      apply bind_inv in H0 as [(s1 & l & Hl & H0) | (e & Hl & _)].
      - apply list_comp_getattr_store in Hl as ->.
        by injection H0 as <- _.
      - by apply list_comp_getattr_store in Hl as ->. }
    apply bind_inv in H as [(s1 & ft & Hft & H) | (e & Hft & _)].
    2: { unfold _get_field_type in Hft.
         destruct (CT !! _); [destruct (cls_field_type _ _)|];
           by injection Hft as <- _. }
    assert (s1 = s) as ->.
    { unfold _get_field_type in Hft.
      destruct (CT !! _); [destruct (cls_field_type _ _)|];
        by injection Hft as <- _. }
    destruct ft as [alts|c|repr]; try by apply (Hlist r).
    destruct (issubclass CT c "BaseDoc") eqn:Hb; [|by apply (Hlist r)].
    unfold __class_getitem__ in H. rewrite Hb in H.
    unfold bind at 1 in H. unfold ret at 1 in H.
    unfold new_DocArray, with_self, __init__, list_validate_docs in H.
    unfold bind at 1 2 3 in H. cbn [truthy iter] in H.
    destruct (for_validate_docs CT _ _ _ _) as [s2 r2] eqn:Hloop.
    apply list_validate_getattr_frame in Hloop as [_ Hh]. simpl in Hh.
    destruct r2 as [l|e]; simpl in H; by injection H as <- _. }
  destruct Hmain as [Hself Hheap]. split; [done|]. split; [done|].
  split; [by rewrite Hself|].
  intros i a o Hi Ho. rewrite Hself. split; [done|].
  by eapply lookup_weaken.
Qed.

End Claims_frame.

(** ** Writing a column *)



Lemma zip_middle (docs vals : list value) (j : nat) d v :
  docs !! j = Some d -> vals !! j = Some v ->
  zip docs vals =
  zip (take j docs) (take j vals)
    ++ (d, v) :: zip (drop (S j) docs) (drop (S j) vals).
Proof.
  intros Hd Hv.
  rewrite <- (take_drop_middle docs j d Hd) at 1.
  rewrite <- (take_drop_middle vals j v Hv) at 1.
  rewrite zip_with_app; [done|].
  rewrite !length_take. apply lookup_lt_Some in Hd, Hv. lia.
Qed.

Section Claims_set_column.

Context (setattr : value -> string -> value -> M unit).

Lemma for_setattr_app (f : string) (p1 p2 : list (value * value)) s :
  for_setattr setattr (p1 ++ p2) f s =
  bind (for_setattr setattr p1 f) (fun _ => for_setattr setattr p2 f) s.
Proof.
  revert s. induction p1 as [|[d v] p1 IH]; intros s; simpl; [done|].
  unfold bind in *. destruct (setattr d f v s) as [s1 [[]|e]]; [|done].
  apply IH.
Qed.

(** The loop is the sequence of the assignments. *)
Lemma for_setattr_foldr (f : string) (pairs : list (value * value)) s :
  for_setattr setattr pairs f s =
  foldr (fun p rest => bind (setattr p.1 f p.2) (fun _ => rest)) (ret tt)
    pairs s.
Proof.
  revert s. induction pairs as [|[d v] pairs IH]; intros s; simpl; [done|].
  unfold bind. destruct (setattr d f v s) as [s1 [[]|e]]; [|done].
  apply IH.
Qed.

Lemma for_setattr_returns (f : string) (pairs : list (value * value))
    (I : store -> Prop) s :
  I s ->
  (forall d v st, (d, v) ∈ pairs -> I st ->
     exists st', setattr d f v st = (st', Returned tt) /\ I st') ->
  exists s', for_setattr setattr pairs f s = (s', Returned tt) /\ I s'.
Proof.
  revert s. induction pairs as [|[d v] pairs IH]; intros s Hs Hall; simpl.
  - by exists s.
  - destruct (Hall d v s) as (s1 & H1 & Hs1); [left|done|].
    rewrite (bind_returned _ _ _ _ _ H1). apply IH; [done|].
    intros d' v' st Hin. apply Hall. by right.
Qed.

Lemma for_setattr_frame (f : string) (pairs : list (value * value)) s s' r :
  local_setattr setattr ->
  for_setattr setattr pairs f s = (s', r) ->
  self s' = self s /\
  forall a o, heap s !! a = Some o ->
    (forall v, (VRef a, v) ∉ pairs) -> heap s' !! a = Some o.
Proof.
  intros Hlocal. revert s.
  induction pairs as [|[d v] pairs IH]; intros s; simpl.
  - by intros [= <- _].
  - intros H. destruct (setattr d f v s) as [s1 r1] eqn:H1.
    destruct (Hlocal _ _ _ _ _ _ H1) as [Hs1 Hh1].
    unfold bind in H. rewrite H1 in H. destruct r1 as [[]|e].
    + apply IH in H as [Hs Hh]. split; [congruence|].
      intros a o Ho Hnot. apply Hh.
      * apply Hh1; [done|]. intros ->. apply (Hnot v). left.
      * intros w Hw. apply (Hnot w). by right.
    + injection H as <- <-. split; [done|].
      intros a o Ho Hnot. apply Hh1; [done|].
      intros ->. apply (Hnot v). left.
Qed.

(** C3 (as amended): [set_column] compares no lengths and has no error of
    its own.  With [k] the smaller of the two lengths, it is the loop of
    assignments [setattr(doc, f, value)] on the first [k] documents and
    the first [k] values, in lockstep: it returns when these assignments
    return (each in a store that the ones before it may leave, which [I]
    describes); when the assignments before a position have returned and the
    one at that position raises, it stops there with that error, in the
    store the failing assignment left.  Documents and values past [k] are
    never used: when an assignment touches only its target, the container
    is unchanged and so is every object that is not one of the first [k]
    documents, whether [set_column] returns or raises. *)
Theorem C3_set_column_zips (s : store) (f : string) (values : column) :
  let docs := data (self s) in
  let vals := column_items values in
  let k := Nat.min (length docs) (length vals) in
  _set_data_column setattr f values s =
    foldr (fun p rest => bind (setattr p.1 f p.2) (fun _ => rest)) (ret tt)
      (zip (take k docs) (take k vals)) s /\
  (forall I : store -> Prop,
     I s ->
     (forall d v st, (d, v) ∈ zip docs vals -> I st ->
        exists st', setattr d f v st = (st', Returned tt) /\ I st') ->
     exists s',
       _set_data_column setattr f values s = (s', Returned tt) /\ I s') /\
  (forall (j : nat) d v s1 s2 e,
     docs !! j = Some d -> vals !! j = Some v ->
     for_setattr setattr (zip (take j docs) (take j vals)) f s
       = (s1, Returned tt) ->
     setattr d f v s1 = (s2, Raised e) ->
     _set_data_column setattr f values s = (s2, Raised e)) /\
  (local_setattr setattr ->
   forall s' r, _set_data_column setattr f values s = (s', r) ->
     self s' = self s /\
     forall a o, heap s !! a = Some o ->
       (forall i : nat, (i < k)%nat -> docs !! i <> Some (VRef a)) ->
       heap s' !! a = Some o).
Proof.
  intros docs vals k.
  assert (Hrun : _set_data_column setattr f values s
                 = for_setattr setattr (zip docs vals) f s) by done.
  split; [|split; [|split]].
  - rewrite Hrun, for_setattr_foldr. unfold k.
    by rewrite zip_with_take_both' by lia.
  - intros I Hs Hall. rewrite Hrun. by apply for_setattr_returns.
  - intros j d v s1 s2 e Hd Hv Hpre Hbad. rewrite Hrun.
    rewrite (zip_middle docs vals j d v Hd Hv), for_setattr_app.
    rewrite (bind_returned _ _ _ _ _ Hpre). simpl.
    unfold bind. by rewrite Hbad.
  - intros Hlocal s' r H. rewrite Hrun in H.
    apply for_setattr_frame in H as [Hs Hh]; [|done].
    split; [done|]. intros a o Ho Hnot. apply Hh; [done|].
    intros v (i & Hi)%list_elem_of_lookup.
    apply lookup_zip_with_Some in Hi as (x & y & [= <- <-] & Hx & Hy).
    apply (Hnot i); [|done].
    apply lookup_lt_Some in Hx, Hy. unfold k. lia.
Qed.

End Claims_set_column.

(** ** Equal values and stores *)


























Section Claims_round_trip.

Context (CT : gmap cname class_decl).
Context (setattr : value -> string -> value -> M unit).



End Claims_round_trip.

(** ** The invariant of the container *)

Lemma benign_ret {A} (a : A) : benign (ret a).
Proof.
  intros s s' r [= <- _]. split; [done | apply classes_kept_refl].
Qed.

Lemma benign_iter (docs : iterable) :
  match docs with IGen g => Forall benign g | IList _ => True end ->
  Forall benign (iter docs).
Proof.
  destruct docs as [l|g]; simpl; [|done]. intros _.
  apply Forall_map, Forall_true. intros x. apply benign_ret.
Qed.

Lemma list_comp_benign {A} (key : A -> M Z) (l : list A) s s' r :
  (forall v, benign (key v)) ->
  list_comp key l s = (s', r) ->
  self s' = self s /\ classes_kept (heap s) (heap s').
Proof.
  intros Hkey. revert s s' r. induction l as [|x l IH]; intros s s' r; simpl.
  - intros [= <- _]. split; [done | apply classes_kept_refl].
  - intros H.
    apply bind_inv in H as [(s1 & k & Hk & H) | (e & Hk & _)];
      [|by apply Hkey in Hk].
    apply Hkey in Hk as [Hs1 Hh1].
    apply bind_inv in H as [(s2 & ks & Hks & H) | (e & Hks & _)].
    + apply IH in Hks as [Hs2 Hh2]. injection H as <- _.
      split; [congruence | by eapply classes_kept_trans].
    + apply IH in Hks as [Hs2 Hh2].
      split; [congruence | by eapply classes_kept_trans].
Qed.

Lemma insert_by_key_Forall (Q : Z * value -> Prop) kx l :
  Q kx -> Forall Q l -> Forall Q (insert_by_key kx l).
Proof.
  intros Hx. induction 1 as [|ky l Hy Hl IH]; simpl.
  - by constructor.
  - destruct (fst kx <=? fst ky); repeat constructor; done.
Qed.

Lemma sort_by_key_Forall (Q : Z * value -> Prop) l :
  Forall Q l -> Forall Q (sort_by_key l).
Proof.
  induction 1 as [|kx l Hx Hl IH]; simpl; [done|].
  by apply insert_by_key_Forall.
Qed.

Lemma zip_snd_Forall (P : value -> Prop) (keys : list Z) l :
  Forall P l -> Forall (fun p => P (snd p)) (zip keys l).
Proof.
  intros Hl. apply Forall_lookup. intros i [k v] Hi. simpl.
  apply lookup_zip_with_Some in Hi as (x & y & [= -> ->] & _ & Hy).
  by eapply Forall_lookup_1.
Qed.

Lemma sorted_values_Forall (P : value -> Prop) (keys : list Z) l :
  Forall P l -> Forall P (map snd (sort_by_key (zip keys l))).
Proof.
  intros Hl. apply Forall_map. apply sort_by_key_Forall.
  by apply zip_snd_Forall.
Qed.

Lemma sorted_reversed_Forall (P : value -> Prop) (keys : list Z) l :
  Forall P l -> Forall P (map snd (rev (sort_by_key (rev (zip keys l))))).
Proof.
  intros Hl. apply Forall_map, Forall_rev, sort_by_key_Forall, Forall_rev.
  by apply zip_snd_Forall.
Qed.

Lemma list_insert_at_Forall (P : value -> Prop) i x l l' :
  list_insert_at i x l = Some l' -> P x -> Forall P l -> Forall P l'.
Proof.
  unfold list_insert_at. destruct (fits_ssize i l); [|done].
  intros [= <-] Hx Hl. apply Forall_app. split; [by apply Forall_take|].
  constructor; [done | by apply Forall_drop].
Qed.

Section Invariant.

Context (CT : gmap cname class_decl).
Context (py_eq : gmap addr obj -> value -> value -> bool).
Context (T : cname).
Context (concrete : issubclass CT T "AnyDoc" = false).

Lemma instances_kept h h' l :
  classes_kept h h' -> instances_of CT T h l -> instances_of CT T h' l.
Proof.
  intros Hk Hl. eapply Forall_impl; [exact Hl|].
  intros v. by apply isinstance_kept.
Qed.

Lemma remove_first_Forall (P : value -> Prop) h x l l' :
  remove_first py_eq h x l = Some l' -> Forall P l -> Forall P l'.
Proof.
  revert l'. induction l as [|y l IH]; intros l'; simpl; [done|].
  intros H [Hy Hl]%Forall_cons. destruct (py_eq h y x).
  - by injection H as <-.
  - destruct (remove_first py_eq h x l) as [l0|]; [|done].
    injection H as <-. constructor; [done | by apply IH].
Qed.

(** A loop over the validating generator keeps what is stable under
    benign steps and kept by its body on instances of [T]. *)
Lemma for_validate_docs_invariant {A} (I : A -> store -> Prop)
    (body : A -> value -> M A) (docs : list (M value)) :
  (forall acc s s', self s' = self s ->
     classes_kept (heap s) (heap s') -> I acc s -> I acc s') ->
  (forall acc v s s' acc',
     _document_type (__class__ (self s)) = T ->
     I acc s -> isinstance CT (heap s) v T = true ->
     body acc v s = (s', Returned acc') ->
     _document_type (__class__ (self s')) = T /\ I acc' s') ->
  Forall benign docs ->
  forall acc s s' acc',
    _document_type (__class__ (self s)) = T -> I acc s ->
    for_validate_docs CT docs body acc s = (s', Returned acc') ->
    _document_type (__class__ (self s')) = T /\ I acc' s'.
Proof.
  intros Hstable Hbody. induction 1 as [|next docs Hnext _ IH];
    intros acc s s' acc' HT HI; simpl.
  - by intros [= <- <-].
  - intros H.
    apply bind_inv in H as [(s1 & doc & Hdoc & H) | (e & _ & [=])].
    apply Hnext in Hdoc as [Hs1 Hh1].
    apply bind_inv in H as [(s2 & v & Hv & H) | (e & _ & [=])].
    apply validate_spec in Hv as (Hs2 & Hh2 & _ & Hinst).
    apply bind_inv in H as [(s3 & acc1 & Hb & H) | (e & _ & [=])].
    assert (HT2 : _document_type (__class__ (self s2)) = T) by congruence.
    assert (HI2 : I acc s2).
    { apply (Hstable acc s s2); [congruence| |done].
      eapply classes_kept_trans; [exact Hh1|].
      by apply classes_kept_subseteq. }
    assert (Hv : isinstance CT (heap s2) v T = true).
    { rewrite <- HT, <- Hs1. apply (Hinst v eq_refl).
      rewrite Hs1, HT. exact concrete. }
    destruct (Hbody acc v s2 s3 acc1 HT2 HI2 Hv Hb) as [HT3 HI3].
    exact (IH acc1 s3 s' acc' HT3 HI3 H).
Qed.

Lemma extend_inv docs s s' :
  match docs with IGen g => Forall benign g | IList _ => True end ->
  inv_of CT T s -> extend CT docs s = (s', Returned tt) -> inv_of CT T s'.
Proof.
  intros Hb [HT Hinv] H. unfold extend in H.
  apply (for_validate_docs_invariant
           (fun _ s => instances_of CT T (heap s) (data (self s)))) in H.
  - done.
  - intros _ s0 s1 Hs Hk. rewrite Hs. by apply instances_kept.
  - intros [] v s0 s1 [] HT0 HI Hv [= <-]. simpl. split; [done|].
    apply Forall_app. split; [done|]. by constructor.
  - by apply benign_iter.
  - done.
  - done.
Qed.

Lemma validate_inv doc s s' v :
  inv_of CT T s -> _validate_one_doc CT doc s = (s', Returned v) ->
  inv_of CT T s' /\ isinstance CT (heap s') v T = true.
Proof.
  intros [HT Hinv] H.
  apply validate_spec in H as (Hs & Hh & _ & Hinst). split.
  - split; [congruence|]. rewrite Hs.
    eapply instances_kept; [|exact Hinv]. by apply classes_kept_subseteq.
  - rewrite <- HT. apply (Hinst v eq_refl). by rewrite HT.
Qed.

Lemma run_op_inv (o : op) s s' :
  benign_op o -> inv_of CT T s ->
  run_op CT py_eq o s = (s', Returned tt) -> inv_of CT T s'.
Proof.
  intros Hb Hinv. destruct o as [doc|docs|i doc|i|x| |key reversed]; simpl.
  - intros H. unfold append in H.
    apply bind_inv in H as [(s1 & v & Hv & H) | (e & _ & [=])].
    apply validate_inv in Hv as [[HT1 H1] Hv]; [|done].
    injection H as <-. split; [done|]. simpl.
    apply Forall_app. split; [done|]. by constructor.
  - apply extend_inv; [|done]. by destruct docs.
  - intros H. unfold insert in H.
    apply bind_inv in H as [(s1 & v & Hv & H) | (e & _ & [=])].
    apply validate_inv in Hv as [[HT1 H1] Hv]; [|done].
    unfold_M.
    destruct (list_insert_at i v (data (self s1))) as [l|] eqn:Hl; [|done].
    injection H as <-. split; [done|]. simpl.
    by eapply list_insert_at_Forall.
  - intros H. destruct Hinv as [HT Hinv].
    apply bind_inv in H as [(s1 & v & Hv & H) | (e & _ & [=])].
    injection H as <-. unfold pop in Hv. unfold_M.
    destruct (fits_ssize i (data (self s))); [|done].
    destruct (list_index i (data (self s))) as [j|]; [|done].
    destruct (data (self s) !! j); [|done].
    injection Hv as <- _. split; [done|]. simpl. by apply Forall_delete.
  - intros H. destruct Hinv as [HT Hinv]. unfold remove in H. unfold_M.
    destruct (remove_first py_eq (heap s) x (data (self s))) as [l|] eqn:Hr;
      [|done].
    injection H as <-. split; [done|]. simpl.
    eapply remove_first_Forall; [exact Hr | exact Hinv].
  - intros H. destruct Hinv as [HT Hinv]. injection H as <-.
    split; [done|]. simpl. by apply Forall_rev.
  - intros H. destruct Hinv as [HT Hinv]. unfold sort in H.
    unfold bind at 1 in H. unfold get_self at 1 in H.
    apply bind_inv in H as [(s1 & keys & Hk & H) | (e & _ & [=])].
    apply (list_comp_benign _ _ _ _ _ Hb) in Hk as [Hs1 Hh1].
    injection H as <-. simpl. rewrite Hs1. split; [done|].
    assert (Hall : instances_of CT T (heap s1) (data (self s)))
      by by eapply instances_kept.
    destruct reversed.
    + by apply sorted_reversed_Forall.
    + by apply sorted_values_Forall.
Qed.

Lemma run_ops_inv (ops : list op) s s' :
  Forall benign_op ops -> inv_of CT T s ->
  run_ops CT py_eq ops s = (s', Returned tt) -> inv_of CT T s'.
Proof.
  intros Hb. revert s. induction Hb as [|o ops Ho _ IH]; intros s Hinv; simpl.
  - by intros [= <-].
  - intros H.
    apply bind_inv in H as [(s1 & [] & Ho1 & H) | (e & _ & [=])].
    apply IH in H; [done|]. by eapply run_op_inv.
Qed.

Lemma new_DocArray_inv cls docs s s1 da :
  _document_type cls = T -> benign_arg docs ->
  new_DocArray CT cls docs s = (s1, Returned da) ->
  inv_of CT T (Store (heap s1) da).
Proof.
  intros HT Hb H. unfold new_DocArray in H.
  apply bind_inv in H as [(s2 & [[] da'] & Hw & H) | (e & _ & [=])].
  injection H as <- <-. simpl. unfold with_self in Hw.
  destruct (__init__ CT docs _) as [s3 [[]|e]] eqn:Hinit; [|done].
  injection Hw as <- <-. simpl.
  unfold __init__ in Hinit.
  apply bind_inv in Hinit as [(s4 & l & Hl & H) | (e & _ & [=])].
  injection H as <-. simpl.
  assert (Hnil : forall s0 : store, instances_of CT T (heap s0) [])
    by by constructor.
  destruct docs as [it|]; [|by injection Hl as <- <-].
  destruct (truthy it); [|by injection Hl as <- <-].
  unfold list_validate_docs in Hl.
  apply (for_validate_docs_invariant
           (fun acc s => instances_of CT T (heap s) acc)) in Hl.
  - destruct Hl as [HT4 Hl]. done.
  - intros acc s0 s0' _ Hk. by apply instances_kept.
  - intros acc v s0 s0' acc' HT0 HI Hv [= <- <-]. split; [done|].
    apply Forall_app. split; [done|]. by constructor.
  - destruct it; [by apply (benign_iter (IList l0)) | done].
  - done.
  - apply Hnil.
Qed.

End Invariant.

(** C7: in a container bound to a concrete record type, after construction
    and any sequence of [append], [extend], [insert], [pop], [remove],
    [reverse] and [sort] that completes without raising, every element of
    the underlying sequence is an instance of that record type.  Generators
    handed to construction or [extend], and sort keys, are benign: they
    leave the container alone and keep every object and its class. *)
Theorem C7_elements_are_instances (CT : gmap cname class_decl)
    (py_eq : gmap addr obj -> value -> value -> bool)
    (cls : DocArrayClass) (docs : option iterable) (ops : list op)
    (s s1 s2 : store) (da : DocArray) :
  issubclass CT (_document_type cls) "AnyDoc" = false ->
  benign_arg docs ->
  Forall benign_op ops ->
  new_DocArray CT cls docs s = (s1, Returned da) ->
  run_ops CT py_eq ops (Store (heap s1) da) = (s2, Returned tt) ->
  _document_type (__class__ (self s2)) = _document_type cls /\
  Forall (fun v => isinstance CT (heap s2) v (_document_type cls) = true)
         (data (self s2)).
Proof.
  intros Hc Hd Ho Hnew Hrun.
  apply (run_ops_inv CT py_eq (_document_type cls) Hc ops _ _ Ho) in Hrun;
    [exact Hrun|].
  by eapply new_DocArray_inv.
Qed.

(** ** The properties on the sample program *)

(** In a container bound to [AnyDoc], a mapping is not stored as it is:
    validation returns a new record, and [append] stores that record. *)
Lemma C1_counterexample :
  snd (_validate_one_doc Sample.CT (VDict [("url", VStr "a.png")])
         (Sample.anys []))
    <> Returned (VDict [("url", VStr "a.png")]) /\
  snd (_validate_one_doc Sample.CT (VDict [("url", VStr "a.png")])
         (Sample.anys [])) = Returned (VRef 5) /\
  data (self (fst (append Sample.CT (VDict [("url", VStr "a.png")])
                     (Sample.anys []))))
    <> [VDict [("url", VStr "a.png")]].
Proof.
  split; [|split].
  - vm_compute. intros H. discriminate H.
  - vm_compute. reflexivity.
  - vm_compute. intros H. discriminate H.
Qed.

(** An integer appended to a container bound to [AnyDoc]. *)
Lemma C1_witness :
  issubclass Sample.CT "AnyDoc" "AnyDoc" = true /\
  is_dict (VInt 3) = false /\
  append Sample.CT (VInt 3) (Sample.anys [VInt 7]) =
    (Sample.anys [VInt 7; VInt 3], Returned tt).
Proof.
  assert (H : issubclass Sample.CT
                (_document_type (__class__ (self (Sample.anys [VInt 7]))))
                "AnyDoc" = true) by (vm_compute; reflexivity).
  split; [exact H|]. split; [reflexivity|].
  destruct (C1_unconstrained_pass_through Sample.CT (Sample.anys [VInt 7]) H)
    as [H1 _].
  destruct (H1 (VInt 3) eq_refl) as (_ & Ha & _). exact Ha.
Defined.

(** [extend] on a record followed by an integer raises at the integer and
    has appended the record. *)
Lemma C2_counterexample :
  snd (extend Sample.CT (IList [VRef 1; VInt 0]) (Sample.images []))
    = Raised (ValueError [FStr (VInt 0); FLit " is not a "; FClass "Image"]) /\
  data (self (fst (extend Sample.CT (IList [VRef 1; VInt 0])
                     (Sample.images [])))) = [VRef 1] /\
  data (self (fst (extend Sample.CT (IList [VRef 1; VInt 0])
                     (Sample.images []))))
    <> data (self (Sample.images [])).
Proof.
  split; [|split].
  - vm_compute. reflexivity.
  - vm_compute. reflexivity.
  - vm_compute. intros H. discriminate H.
Qed.

(** The same with a record after the failing element. *)
Lemma C2_witness :
  extend Sample.CT (IList [VRef 1]) (Sample.images [])
    = (Sample.images [VRef 1], Returned tt) /\
  _validate_one_doc Sample.CT (VInt 0) (Sample.images [VRef 1])
    = (Sample.images [VRef 1],
       Raised (ValueError [FStr (VInt 0); FLit " is not a "; FClass "Image"])) /\
  extend Sample.CT (IList ([VRef 1] ++ VInt 0 :: [VRef 2])) (Sample.images [])
    = (Sample.images [VRef 1],
       Raised (ValueError [FStr (VInt 0); FLit " is not a "; FClass "Image"])).
Proof.
  assert (H1 : extend Sample.CT (IList [VRef 1]) (Sample.images [])
               = (Sample.images [VRef 1], Returned tt))
    by (vm_compute; reflexivity).
  assert (H2 : _validate_one_doc Sample.CT (VInt 0) (Sample.images [VRef 1])
    = (Sample.images [VRef 1],
       Raised (ValueError [FStr (VInt 0); FLit " is not a "; FClass "Image"])))
    by (vm_compute; reflexivity).
  split; [exact H1|]. split; [exact H2|].
  exact (proj1 (C2_extend_keeps_validated_prefix Sample.CT [VRef 1] [VRef 2]
                  (VInt 0) _ _ _ _ H1 H2)).
Defined.

(** The assignment that stores the value touches only its target. *)
Lemma plain_setattr_local : local_setattr Sample.plain_setattr.
Proof.
  intros d f v s s' r. unfold Sample.plain_setattr. unfold_M.
  destruct d as [|z|x|kw|a]; try (by intros [= <- _]).
  destruct (heap s !! a) as [o|] eqn:Ho; intros [= <- _]; [|done].
  split; [done|]. intros b ob Hb Hne. simpl.
  rewrite lookup_insert_ne; [done | congruence].
Qed.



(** One value for a container of two documents: [set_column] returns, and
    the first document has the new value. *)
Lemma C3_counterexample :
  length [VStr "http://url.com/foo.png"]
    <> length (data (self (Sample.images [VRef 1; VRef 2]))) /\
  snd (_set_data_column Sample.plain_setattr "url"
         (ColList [VStr "http://url.com/foo.png"])
         (Sample.images [VRef 1; VRef 2])) = Returned tt /\
  snd (py_getattr (VRef 1) "url" (Sample.images [VRef 1; VRef 2]))
    = Returned (VStr "a.png") /\
  snd (py_getattr (VRef 1) "url"
         (fst (_set_data_column Sample.plain_setattr "url"
                 (ColList [VStr "http://url.com/foo.png"])
                 (Sample.images [VRef 1; VRef 2]))))
    = Returned (VStr "http://url.com/foo.png").
Proof.
  split; [|split; [|split]].
  - vm_compute. intros H. discriminate H.
  - vm_compute. reflexivity.
  - vm_compute. reflexivity.
  - vm_compute. reflexivity.
Qed.

(** The same run: it returns, and the second document is as it was. *)
Lemma C3_witness :
  exists s',
    _set_data_column Sample.plain_setattr "url"
      (ColList [VStr "http://url.com/foo.png"])
      (Sample.images [VRef 1; VRef 2]) = (s', Returned tt) /\
    heap s' !! 2%nat = Some (Sample.image "b.png").
Proof.
  pose proof (C3_set_column_zips Sample.plain_setattr
                (Sample.images [VRef 1; VRef 2]) "url"
                (ColList [VStr "http://url.com/foo.png"])) as H.
  cbv zeta in H. destruct H as (_ & Hret & _ & Hframe).
  destruct (Hret (fun st => is_Some (heap st !! (1%nat : addr))))
    as (s' & Hrun & _).
  - vm_compute. eexists. reflexivity.
  - intros d v st [= -> ->]%list_elem_of_singleton [o Ho].
    eexists. split.
    + unfold Sample.plain_setattr. unfold_M. rewrite Ho. reflexivity.
    + simpl. rewrite lookup_insert_eq. eexists. reflexivity.
  - exists s'. split; [exact Hrun|].
    apply (proj2 (Hframe plain_setattr_local s' _ Hrun)).
    + vm_compute. reflexivity.
    + simpl. intros i Hi. assert (i = 0%nat) as -> by lia.
      simpl. intros E. discriminate E.
Defined.

(** An integer in a container of images: the message of the error shows
    the integer and names [Image]; it does not name [int]. *)
Lemma C4_counterexample :
  issubclass Sample.CT "Image" "AnyDoc" = false /\
  type_of Sample.objects (VInt 5) = Some "int" /\
  _validate_one_doc Sample.CT (VInt 5) (Sample.images []) =
    (Sample.images [],
     Raised (ValueError [FStr (VInt 5); FLit " is not a "; FClass "Image"])) /\
  ~ names_class [FStr (VInt 5); FLit " is not a "; FClass "Image"] "int".
Proof.
  split; [|split; [|split]].
  - vm_compute. reflexivity.
  - reflexivity.
  - vm_compute. reflexivity.
  - unfold names_class. rewrite !elem_of_cons, elem_of_nil.
    intros [H|[H|[H|[]]]]; discriminate H.
Qed.

(** An image passes; a page fails, and the message names [Image]. *)
Lemma C4_witness :
  issubclass Sample.CT "Image" "AnyDoc" = false /\
  _validate_one_doc Sample.CT (VRef 1) (Sample.images []) =
    (Sample.images [], Returned (VRef 1)) /\
  exists msg,
    _validate_one_doc Sample.CT (VRef 3) (Sample.images []) =
      (Sample.images [], Raised (ValueError msg)) /\
    msg = [FStr (VRef 3); FLit " is not a "; FClass "Image"] /\
    shows_value msg (VRef 3) /\ names_class msg "Image".
Proof.
  assert (H : issubclass Sample.CT
                (_document_type (__class__ (self (Sample.images []))))
                "AnyDoc" = false) by (vm_compute; reflexivity).
  split; [exact H|].
  destruct (C4_validate_one_concrete Sample.CT (Sample.images []) H)
    as (_ & Hpass & Hfail).
  split.
  - apply (Hpass (VRef 1)); [reflexivity | vm_compute; reflexivity].
  - apply (Hfail (VRef 3)); [reflexivity | vm_compute; reflexivity].
Defined.



(** Three elements, the second of which is invalid. *)
Lemma C6_witness :
  list_validate_docs Sample.CT
    (iter (IList (take 1 [VRef 1; VInt 0; VRef 2]))) (Sample.images [])
    = (Sample.images [], Returned [VRef 1]) /\
  [VRef 1; VInt 0; VRef 2] !! 1%nat = Some (VInt 0) /\
  _validate_one_doc Sample.CT (VInt 0) (Sample.images [])
    = (Sample.images [],
       Raised (ValueError [FStr (VInt 0); FLit " is not a "; FClass "Image"])) /\
  list_validate_docs Sample.CT (iter (IList [VRef 1; VInt 0; VRef 2]))
    (Sample.images [])
    = (Sample.images [],
       Raised (ValueError [FStr (VInt 0); FLit " is not a "; FClass "Image"])).
Proof.
  assert (H1 : list_validate_docs Sample.CT
    (iter (IList (take 1 [VRef 1; VInt 0; VRef 2]))) (Sample.images [])
    = (Sample.images [], Returned [VRef 1])) by (vm_compute; reflexivity).
  assert (H2 : _validate_one_doc Sample.CT (VInt 0) (Sample.images [])
    = (Sample.images [],
       Raised (ValueError [FStr (VInt 0); FLit " is not a "; FClass "Image"])))
    by (vm_compute; reflexivity).
  split; [exact H1|]. split; [reflexivity|]. split; [exact H2|].
  exact (proj1 (C6_validate_docs_lazy Sample.CT [VRef 1; VInt 0; VRef 2]
                  1 (VInt 0) _ _ _ _ _ H1 eq_refl H2)).
Defined.

Lemma by_address_benign (v : value) : benign (Sample.by_address v).
Proof.
  destruct v as [|z|str|kw|a]; intros st st' r [= <- _];
    (split; [reflexivity | apply classes_kept_refl]).
Qed.

(** A container of images through [Sample.some_ops]. *)
Lemma C7_witness :
  issubclass Sample.CT "Image" "AnyDoc" = false /\
  new_DocArray Sample.CT (MkClass "Image" "Image") (Some (IList [VRef 1]))
    (Sample.images [])
    = (Sample.images [],
       Returned (MkDocArray (MkClass "Image" "Image") [VRef 1])) /\
  run_ops Sample.CT Sample.py_eq Sample.some_ops (Sample.images [VRef 1])
    = (Sample.images [VRef 2; VRef 2; VRef 1], Returned tt) /\
  Forall (fun v => isinstance Sample.CT Sample.objects v "Image" = true)
    [VRef 2; VRef 2; VRef 1].
Proof.
  assert (Hc : issubclass Sample.CT
                 (_document_type (MkClass "Image" "Image")) "AnyDoc" = false)
    by (vm_compute; reflexivity).
  assert (Hnew : new_DocArray Sample.CT (MkClass "Image" "Image")
                   (Some (IList [VRef 1])) (Sample.images [])
    = (Sample.images [],
       Returned (MkDocArray (MkClass "Image" "Image") [VRef 1])))
    by (vm_compute; reflexivity).
  assert (Hrun : run_ops Sample.CT Sample.py_eq Sample.some_ops
                   (Store (heap (Sample.images []))
                      (MkDocArray (MkClass "Image" "Image") [VRef 1]))
    = (Sample.images [VRef 2; VRef 2; VRef 1], Returned tt))
    by (vm_compute; reflexivity).
  split; [exact Hc|]. split; [exact Hnew|]. split; [exact Hrun|].
  refine (proj2 (C7_elements_are_instances Sample.CT Sample.py_eq
                   (MkClass "Image" "Image") (Some (IList [VRef 1]))
                   Sample.some_ops _ _ _ _ Hc I _ Hnew Hrun)).
  unfold Sample.some_ops.
  repeat (apply Forall_cons; split;
          [first [exact I | intros v; apply by_address_benign] |]).
  constructor.
Defined.

(** A second image appended to a container of one. *)
Lemma C8_witness :
  isinstance Sample.CT Sample.objects (VRef 2) "Image" = true /\
  exists s',
    append Sample.CT (VRef 2) (Sample.images [VRef 1]) = (s', Returned tt) /\
    __getitem__ (-1) s' = (s', Returned (VRef 2)) /\
    __len__ s' = (s', Returned 2).
Proof.
  assert (H : isinstance Sample.CT (heap (Sample.images [VRef 1])) (VRef 2)
                (_document_type (__class__ (self (Sample.images [VRef 1]))))
              = true) by (vm_compute; reflexivity).
  split; [exact H|].
  destruct (C8_append_valid_record Sample.CT (Sample.images [VRef 1]) 2 H)
    as (s' & Hrun & _ & _ & Hget & Hlen & _).
  exists s'. split; [exact Hrun|]. split; [exact Hget | exact Hlen].
Defined.


(** The titles of two pages, read. *)
Lemma C10_witness :
  _get_data_column Sample.CT "title" (Sample.pages [VRef 3; VRef 4])
    = (Sample.pages [VRef 3; VRef 4],
       Returned (ColList [VStr "one"; VStr "two"])) /\
  self (Sample.pages [VRef 3; VRef 4]) = self (Sample.pages [VRef 3; VRef 4])
  /\ Sample.objects ⊆ Sample.objects.
Proof.
  assert (H : _get_data_column Sample.CT "title"
                (Sample.pages [VRef 3; VRef 4])
    = (Sample.pages [VRef 3; VRef 4],
       Returned (ColList [VStr "one"; VStr "two"])))
    by (vm_compute; reflexivity).
  split; [exact H|].
  destruct (C10_get_column_read_only Sample.CT _ _ "title" _ H)
    as (Hs & Hh & _).
  split; [exact Hs | exact Hh].
Defined.

(** ** Indices as [ssize_t] *)

Lemma fits_ssize_in i (l : list value) :
  ssize_min <= i <= ssize_max -> fits_ssize i l = true.
Proof.
  intros Hi. unfold fits_ssize.
  destruct (Z.leb_spec ssize_min i); [|lia].
  destruct (Z.leb_spec i ssize_max); [done|lia].
Qed.

Lemma fits_ssize_within i (l : list value) :
  - Z.of_nat (length l) <= i <= Z.of_nat (length l) -> fits_ssize i l = true.
Proof.
  intros Hi. unfold fits_ssize. apply orb_true_iff. right.
  destruct (Z.leb_spec (- Z.of_nat (length l)) i); [|lia].
  destruct (Z.leb_spec i (Z.of_nat (length l))); [done|lia].
Qed.

Lemma fits_ssize_false i (l : list value) :
  fits_ssize i l = false -> i < ssize_min \/ ssize_max < i.
Proof.
  unfold fits_ssize. intros [H _]%orb_false_iff.
  destruct (Z.leb_spec ssize_min i); [|lia].
  destruct (Z.leb_spec i ssize_max); [done|lia].
Qed.

Lemma fits_ssize_out i (l : list value) :
  i < ssize_min \/ ssize_max < i -> Z.of_nat (length l) <= ssize_max ->
  fits_ssize i l = false.
Proof.
  intros Hi Hl. unfold fits_ssize. apply orb_false_iff.
  unfold ssize_min, ssize_max in *. split; apply andb_false_iff.
  - destruct Hi; [left|right]; [apply Z.leb_gt|apply Z.leb_gt]; lia.
  - destruct Hi; [left|right]; [apply Z.leb_gt|apply Z.leb_gt]; lia.
Qed.

(** ** Further properties of validation *)

Section More_validation.

Context (CT : gmap cname class_decl).

(** Validation reads the class of [self] and the heap, not [self.data]. *)
Lemma validate_data_indep doc h c l l' :
  _validate_one_doc CT doc (Store h (MkDocArray c l')) =
  (Store (heap (_validate_one_doc CT doc (Store h (MkDocArray c l))).1)
     (MkDocArray c l'),
   (_validate_one_doc CT doc (Store h (MkDocArray c l))).2).
Proof.
  unfold _validate_one_doc. unfold_M. simpl.
  destruct doc; simpl;
    try (destruct (negb (issubclass CT (_document_type c) "AnyDoc") && _);
         reflexivity).
  unfold construct. destruct (CT !! _document_type c) as [d|]; [|done].
  destruct (cls_init d kw); done.
Qed.

(** X1: validation is idempotent: a value that validation returned is
    returned unchanged, with the store as it is, when validated again. *)
Theorem X1_validate_idempotent (doc v : value) (s s' : store) :
  _validate_one_doc CT doc s = (s', Returned v) ->
  _validate_one_doc CT v s' = (s', Returned v).
Proof.
  intros H. destruct (is_dict doc) eqn:Hd.
  - destruct doc; try done. rewrite validate_dict in H.
    apply construct_spec in H as [(dict & [= ->] & ->) | (e & [=] & _)].
    apply validate_pass; [done|]. right. unfold isinstance. simpl.
    rewrite lookup_insert_eq. apply issubclass_refl.
  - destruct (issubclass CT (_document_type (__class__ (self s))) "AnyDoc")
      eqn:H1.
    { rewrite validate_pass in H by auto. injection H as <- <-.
      apply validate_pass; auto. }
    destruct (isinstance CT (heap s) doc
                (_document_type (__class__ (self s)))) eqn:H2.
    { rewrite validate_pass in H by auto. injection H as <- <-.
      apply validate_pass; auto. }
    rewrite validate_fail in H by auto. done.
Qed.

(** X2: validation never touches the container or an existing object: it
    leaves [self] as it is and every object of the heap in place; a value
    that is not a mapping, and any failure, leave the whole store as it
    was, so that only a converted mapping adds an object. *)
Theorem X2_validate_frame (doc : value) (s s' : store) (r : outcome value) :
  _validate_one_doc CT doc s = (s', r) ->
  self s' = self s /\ heap s ⊆ heap s' /\
  (is_dict doc = false -> s' = s) /\
  (forall e, r = Raised e -> s' = s).
Proof.
  intros H. pose proof (validate_spec CT doc s s' r H) as (Hs & Hh & He & _).
  split; [done|]. split; [done|]. split; [|done].
  intros Hd.
  destruct (issubclass CT (_document_type (__class__ (self s))) "AnyDoc")
    eqn:H1.
  { rewrite validate_pass in H by auto. by injection H as <- _. }
  destruct (isinstance CT (heap s) doc
              (_document_type (__class__ (self s)))) eqn:H2.
  { rewrite validate_pass in H by auto. by injection H as <- _. }
  rewrite validate_fail in H by auto. by injection H as <- _.
Qed.

(** X3: every mapping becomes a record of its own: the record a mapping is
    converted to is at an address no object had, and converting a second
    mapping afterwards, even an equal one, gives a different record. *)
Theorem X3_converted_records_distinct (kw kw' : list (string * value))
    (v1 v2 : value) (s s1 s2 : store) :
  _validate_one_doc CT (VDict kw) s = (s1, Returned v1) ->
  _validate_one_doc CT (VDict kw') s1 = (s2, Returned v2) ->
  v1 <> v2 /\
  exists a1 a2, v1 = VRef a1 /\ v2 = VRef a2 /\
    heap s !! a1 = None /\ heap s1 !! a2 = None /\ is_Some (heap s1 !! a1).
Proof.
  intros H1 H2. rewrite validate_dict in H1, H2.
  apply construct_spec in H1 as [(d1 & [= ->] & ->) | (e & [=] & _)].
  apply construct_spec in H2 as [(d2 & [= ->] & ->) | (e & [=] & _)].
  simpl in *.
  assert (Hf1 : heap s !! fresh (dom (heap s)) = None)
    by apply not_elem_of_dom, is_fresh.
  set (h1 := <[fresh (dom (heap s)) := Obj _ d1]> (heap s)) in *.
  assert (Hf2 : h1 !! fresh (dom h1) = None)
    by apply not_elem_of_dom, is_fresh.
  assert (Hin : is_Some (h1 !! fresh (dom (heap s)))).
  { unfold h1. rewrite lookup_insert_eq. eauto. }
  split.
  - intros [= E]. rewrite E in Hin. rewrite Hf2 in Hin. by destruct Hin.
  - eauto 10.
Qed.

(** X4: a failing [append] or [insert] leaves the container as it was.
    When [append] raises, the error is that of validating the element and
    the whole store is as before.  When [insert] raises, either it is so
    too, or the element has validated and the index does not fit a
    [ssize_t]: the error is [OverflowError], the container is unchanged,
    and the store is the one validation left (with the new record, if the
    element was a mapping). *)
Theorem X4_append_insert_atomic (doc : value) (i : Z) (s s' : store)
    (e : exn) :
  (append CT doc s = (s', Raised e) ->
     s' = s /\ _validate_one_doc CT doc s = (s, Raised e)) /\
  (insert CT i doc s = (s', Raised e) ->
     self s' = self s /\
     ((s' = s /\ _validate_one_doc CT doc s = (s, Raised e)) \/
      (e = OverflowError /\ (i < ssize_min \/ ssize_max < i) /\
       exists v, _validate_one_doc CT doc s = (s', Returned v)))).
Proof.
  split; intros H.
  - unfold append in H.
    apply bind_inv in H as [(s1 & v & _ & H) | (e' & Hv & [= <-])]; [done|].
    pose proof (validate_spec CT _ _ _ _ Hv) as (_ & _ & He & _).
    rewrite (He e eq_refl) in Hv |- *. done.
  - destruct (_validate_one_doc CT doc s) as [s1 [v|e']] eqn:Hv.
    + rewrite (insert_run CT i doc s s1 v Hv) in H.
      destruct (list_insert_at i v (data (self s1))) as [l|] eqn:Hl; [done|].
      injection H as <- <-.
      pose proof (validate_spec CT _ _ _ _ Hv) as (Hs & _).
      split; [done|]. right. split; [done|]. split; [|eauto].
      unfold list_insert_at in Hl.
      destruct (fits_ssize i (data (self s1))) eqn:Hf; [done|].
      by apply fits_ssize_false in Hf.
    + unfold insert in H. rewrite (bind_raised _ _ _ _ _ Hv) in H.
      injection H as <- <-.
      pose proof (validate_spec CT _ _ _ _ Hv) as (_ & _ & He & _).
      rewrite (He e' eq_refl) in Hv |- *. split; [done|]. by left.
Qed.

(** X5: [extend] on a list is [append] on each element in turn, and
    extending by a concatenation is extending by its parts one after the
    other. *)
Theorem X5_extend_is_appends (docs docs' : list value) (s : store) :
  extend CT (IList docs) s =
    foldr (fun d k => bind (append CT d) (fun _ => k)) (ret tt) docs s /\
  extend CT (IList (docs ++ docs')) s =
    bind (extend CT (IList docs)) (fun _ => extend CT (IList docs')) s.
Proof.
  split.
  - unfold extend. simpl. revert s.
    induction docs as [|d docs IH]; intros s; simpl; [done|].
    unfold append, bind, ret.
    destruct (_validate_one_doc CT d s) as [s1 [v|e]]; [|done].
    destruct (data_append v s1) as [s2 [[]|e]]; [|done].
    apply IH.
  - unfold extend. simpl. rewrite map_app, for_validate_docs_app.
    unfold bind.
    destruct (for_validate_docs CT (map ret docs) _ tt s) as [s1 [[]|e]]; done.
Qed.

End More_validation.

Section More_extend.

Context (CT : gmap cname class_decl).

(** The loop of [list(...)] and the loop of [list.extend] go through the
    same validations: run from the same heap, the first with the elements
    collected so far in [acc], the second with them in [self.data]. *)
Lemma loops_agree (c : DocArrayClass) (docs acc l0 : list value)
    (h : gmap addr obj) :
  for_validate_docs CT (map ret docs) (fun acc v => ret (acc ++ [v])) acc
    (Store h (MkDocArray c l0)) =
  match for_validate_docs CT (map ret docs) (fun _ v => data_append v) tt
          (Store h (MkDocArray c acc)) with
  | (s1, Returned _) =>
      (Store (heap s1) (MkDocArray c l0), Returned (data (self s1)))
  | (s1, Raised e) => (Store (heap s1) (MkDocArray c l0), Raised e)
  end.
Proof.
  revert acc h. induction docs as [|d docs IH]; intros acc h; simpl; [done|].
  unfold bind at 1 4. unfold ret at 1 3.
  unfold bind at 1 3.
  rewrite (validate_data_indep CT d h c acc l0).
  destruct (_validate_one_doc CT d (Store h (MkDocArray c acc)))
    as [s1 [v|e]] eqn:Hv; simpl; rewrite ?Hv; [|done].
  pose proof (validate_spec CT _ _ _ _ Hv) as (Hs & _). simpl in Hs.
  unfold bind at 1 2. unfold ret at 1. unfold data_append. unfold_M.
  rewrite Hs. simpl. apply IH.
Qed.

Lemma new_DocArray_extend (cls : DocArrayClass) (docs : list value)
    (s : store) :
  new_DocArray CT cls (Some (IList docs)) s =
  match extend CT (IList docs) (Store (heap s) (MkDocArray cls [])) with
  | (s1, Returned _) => (Store (heap s1) (self s), Returned (self s1))
  | (s1, Raised e) => (Store (heap s1) (self s), Raised e)
  end.
Proof.
  unfold new_DocArray, with_self, __init__, extend. unfold bind at 1 2.
  destruct docs as [|d docs].
  - simpl. by destruct s as [h [c l]].
  - cbn [truthy iter]. unfold list_validate_docs. rewrite loops_agree.
    destruct (for_validate_docs CT (map ret (d :: docs)) _ tt _)
      as [s1 [[]|e]] eqn:Hloop; simpl; [|done].
    assert (Hc : __class__ (self s1) = cls).
    { clear -Hloop. revert Hloop.
      generalize (@nil value) at 1. generalize (heap s).
      generalize (d :: docs). clear.
      intros l. induction l as [|x l IH]; intros h l0; simpl.
      - by intros [= <-].
      - unfold bind at 1. unfold ret at 1. intros H.
        apply bind_inv in H as [(sa & v & Hv & H) | (e & _ & [=])].
        apply validate_spec in Hv as (Hs & _). simpl in Hs.
        unfold bind at 1 in H. unfold data_append in H. unfold_M.
        rewrite Hs in H. simpl in H. by apply IH in H. }
    destruct s1 as [h1 [c1 l1]]. simpl in *. by subst.
Qed.

(** X6: building a container from a list is extending the empty container
    of the class by it: both run the same validations, leave the same heap
    and raise the same error; when they return, the new container is the
    extended one.  The caller's own container is not touched. *)
Theorem X6_construction_is_extend (cls : DocArrayClass) (docs : list value)
    (s : store) :
  new_DocArray CT cls (Some (IList docs)) s =
  match extend CT (IList docs) (Store (heap s) (MkDocArray cls [])) with
  | (s1, Returned _) => (Store (heap s1) (self s), Returned (self s1))
  | (s1, Raised e) => (Store (heap s1) (self s), Raised e)
  end.
Proof. apply new_DocArray_extend. Qed.

(** X7: extending by values that are valid for the schema (not mappings,
    and instances of the schema unless it is unconstrained) appends them
    all, in order and as the same references, and changes nothing else;
    building a container from them gives a container of exactly them. *)
Theorem X7_extend_valid_records (docs : list value) (s : store) :
  let T := _document_type (__class__ (self s)) in
  Forall (fun d => is_dict d = false /\
                   (issubclass CT T "AnyDoc" = true \/
                    isinstance CT (heap s) d T = true)) docs ->
  extend CT (IList docs) s =
    (Store (heap s) (MkDocArray (__class__ (self s)) (data (self s) ++ docs)),
     Returned tt) /\
  new_DocArray CT (__class__ (self s)) (Some (IList docs)) s =
    (s, Returned (MkDocArray (__class__ (self s)) docs)).
Proof.
  intros T HF.
  assert (Hext : forall l0,
    extend CT (IList docs) (Store (heap s) (MkDocArray (__class__ (self s)) l0))
    = (Store (heap s) (MkDocArray (__class__ (self s)) (l0 ++ docs)),
       Returned tt)).
  { unfold extend. simpl. induction HF as [|d docs [Hd Hok] _ IH];
      intros l0; simpl.
    - by rewrite app_nil_r.
    - unfold bind at 1. unfold ret at 1.
      rewrite (bind_returned _ _ _ _ _
                 (validate_pass CT d (Store (heap s) (MkDocArray _ l0))
                    Hd Hok)).
      unfold bind at 1. unfold data_append. unfold_M. simpl.
      rewrite IH. by rewrite <- app_assoc. }
  split.
  - specialize (Hext (data (self s))). by destruct s as [h [c l]].
  - rewrite new_DocArray_extend, Hext. simpl.
    by destruct s as [h [c l]].
Qed.

End More_extend.

(** ** The list primitives *)

Lemma list_insert_at_length i x l l' :
  list_insert_at i x l = Some l' -> length l' = S (length l).
Proof.
  unfold list_insert_at. destruct (fits_ssize i l); [|done].
  intros [= <-]. rewrite length_app. simpl.
  rewrite length_take, length_drop. lia.
Qed.

Lemma list_insert_at_end i x l :
  Z.of_nat (length l) <= i <= ssize_max ->
  list_insert_at i x l = Some (l ++ [x]).
Proof.
  intros Hi. unfold list_insert_at.
  rewrite fits_ssize_in by (unfold ssize_min; lia).
  destruct (Z.ltb_spec i 0); [lia|].
  rewrite Z.min_r by lia. rewrite Nat2Z.id.
  by rewrite take_ge, drop_ge by lia.
Qed.

Lemma list_insert_at_front i x l :
  ssize_min <= i <= - Z.of_nat (length l) ->
  list_insert_at i x l = Some (x :: l).
Proof.
  intros Hi. unfold list_insert_at.
  rewrite fits_ssize_in by (unfold ssize_max; lia).
  destruct (Z.ltb_spec i 0).
  - rewrite Z.max_r by lia. simpl. by rewrite drop_0.
  - assert (length l = 0%nat) as Hl by lia.
    destruct l; [|done]. simpl.
    rewrite Z.min_r by lia. done.
Qed.

Lemma list_insert_at_position (j : nat) x l :
  (j <= length l)%nat ->
  list_insert_at (Z.of_nat j) x l = Some (take j l ++ x :: drop j l).
Proof.
  intros Hj. unfold list_insert_at.
  rewrite fits_ssize_within by lia.
  destruct (Z.ltb_spec (Z.of_nat j) 0); [lia|].
  rewrite Z.min_l by lia. by rewrite Nat2Z.id.
Qed.

Lemma list_index_None i (l : list value) :
  list_index i l = None <->
  i < - Z.of_nat (length l) \/ Z.of_nat (length l) <= i.
Proof.
  unfold list_index.
  destruct (Z.ltb_spec i 0);
    [destruct (Z.ltb_spec (i + Z.of_nat (length l)) 0);
     destruct (Z.leb_spec (Z.of_nat (length l)) (i + Z.of_nat (length l)))
    |destruct (Z.ltb_spec i 0);
     destruct (Z.leb_spec (Z.of_nat (length l)) i)];
    simpl; split; intros; try done; try lia.
Qed.

Lemma list_index_Some i (l : list value) j :
  list_index i l = Some j ->
  (j < length l)%nat /\
  Z.of_nat j = (if i <? 0 then i + Z.of_nat (length l) else i).
Proof.
  unfold list_index.
  destruct (Z.ltb_spec i 0);
    [destruct (Z.ltb_spec (i + Z.of_nat (length l)) 0);
     destruct (Z.leb_spec (Z.of_nat (length l)) (i + Z.of_nat (length l)))
    |destruct (Z.ltb_spec i 0);
     destruct (Z.leb_spec (Z.of_nat (length l)) i)];
    simpl; intros [= <-]; lia.
Qed.

Section More_list_ops.

Context (CT : gmap cname class_decl).
Context (py_eq : gmap addr obj -> value -> value -> bool).

(** X8: [insert] clamps an index that fits a [ssize_t]: with an index at or
    past the end it is [append], whatever the element; a valid element is
    then always inserted, the length growing by one, and goes to the front
    with an index at or before minus the length.  With an index that does
    not fit a [ssize_t] a valid element is not inserted: [insert] raises
    [OverflowError] and the store is as it was. *)
Theorem X8_insert_clamps (i : Z) (doc : value) (s : store) :
  (Z.of_nat (length (data (self s))) <= i <= ssize_max ->
     insert CT i doc s = append CT doc s) /\
  (_validate_one_doc CT doc s = (s, Returned doc) ->
   ssize_min <= i <= ssize_max ->
     exists s',
       insert CT i doc s = (s', Returned tt) /\
       heap s' = heap s /\
       __class__ (self s') = __class__ (self s) /\
       length (data (self s')) = S (length (data (self s))) /\
       (i <= - Z.of_nat (length (data (self s))) ->
          data (self s') = doc :: data (self s))) /\
  (_validate_one_doc CT doc s = (s, Returned doc) ->
   i < ssize_min \/ ssize_max < i ->
   Z.of_nat (length (data (self s))) <= ssize_max ->
     insert CT i doc s = (s, Raised OverflowError)).
Proof.
  split; [|split].
  - intros Hi. unfold append.
    destruct (_validate_one_doc CT doc s) as [s1 [v|e]] eqn:Hv.
    + rewrite (insert_run CT i doc s s1 v Hv).
      rewrite (bind_returned _ _ _ _ _ Hv).
      pose proof (validate_spec CT _ _ _ _ Hv) as (Hs & _).
      rewrite list_insert_at_end by (by rewrite Hs). done.
    + unfold insert. by rewrite !(bind_raised _ _ _ _ _ Hv).
  - intros Hv Hi. rewrite (insert_run CT i doc s s doc Hv).
    destruct (list_insert_at i doc (data (self s))) as [l|] eqn:Hl.
    2: { unfold list_insert_at in Hl. by rewrite fits_ssize_in in Hl. }
    eexists. split; [done|]. simpl. split; [done|]. split; [done|].
    split; [by eapply list_insert_at_length|].
    intros Hfront. rewrite list_insert_at_front in Hl by lia.
    by injection Hl as <-.
  - intros Hv Hi Hlen. rewrite (insert_run CT i doc s s doc Hv).
    unfold list_insert_at. by rewrite fits_ssize_out.
Qed.

(** X9: [pop] takes its index as a [ssize_t], then checks it against the
    bounds of the list: an index that does not fit raises [OverflowError];
    one that fits and is below minus the length or at or past the length,
    so any such index on an empty container, raises [IndexError]; both
    leave the store as it was.  An index in range returns the element at
    the position it denotes (counting from the end when negative) and
    removes exactly that element, the others keeping their order. *)
Theorem X9_pop_bounds (i : Z) (s : store) :
  let n := Z.of_nat (length (data (self s))) in
  (i < ssize_min \/ ssize_max < i -> n <= ssize_max ->
     pop i s = (s, Raised OverflowError)) /\
  (ssize_min <= i <= ssize_max -> i < - n \/ n <= i ->
     pop i s = (s, Raised IndexError)) /\
  (- n <= i < n ->
     exists v,
       data (self s) !! Z.to_nat (if i <? 0 then i + n else i) = Some v /\
       pop i s =
         (Store (heap s)
            (MkDocArray (__class__ (self s))
               (take (Z.to_nat (if i <? 0 then i + n else i)) (data (self s))
                ++ drop (S (Z.to_nat (if i <? 0 then i + n else i)))
                     (data (self s)))),
          Returned v)).
Proof.
  intros n. split; [|split].
  - intros Hi Hn. unfold pop. unfold_M. by rewrite fits_ssize_out.
  - intros Hfit Hi%list_index_None. unfold pop. unfold_M.
    by rewrite fits_ssize_in, Hi.
  - intros Hi.
    destruct (list_index i (data (self s))) as [j|] eqn:Hj.
    2: { apply list_index_None in Hj. fold n in Hj. lia. }
    apply list_index_Some in Hj as Hj'. fold n in Hj'.
    destruct Hj' as [Hlt Hjz].
    rewrite <- Hjz, Nat2Z.id.
    destruct (lookup_lt_is_Some_2 _ _ Hlt) as [v Hv].
    exists v. split; [done|].
    unfold pop. unfold_M. rewrite fits_ssize_within by (fold n; lia).
    rewrite Hj, Hv. simpl.
    by rewrite delete_take_drop.
Qed.

Lemma pop_at i j v s :
  fits_ssize i (data (self s)) = true ->
  list_index i (data (self s)) = Some j ->
  data (self s) !! j = Some v ->
  pop i s =
  (Store (heap s) (MkDocArray (__class__ (self s)) (delete j (data (self s)))),
   Returned v).
Proof. intros Hf Hi Hj. unfold pop. unfold_M. by rewrite Hf, Hi, Hj. Qed.

(** X10: [pop()] undoes [append]: appending a valid element and popping the
    last gives the element back and leaves the store exactly as it was. *)
Theorem X10_append_pop_round_trip (doc : value) (s : store) :
  _validate_one_doc CT doc s = (s, Returned doc) ->
  bind (append CT doc) (fun _ => pop (-1)) s = (s, Returned doc).
Proof.
  intros Hv.
  assert (Happ : append CT doc s =
            (Store (heap s)
               (MkDocArray (__class__ (self s)) (data (self s) ++ [doc])),
             Returned tt)).
  { unfold append. by rewrite (bind_returned _ _ _ _ _ Hv). }
  rewrite (bind_returned _ _ _ _ _ Happ).
  rewrite (pop_at (-1) (length (data (self s))) doc).
  - cbn [self data heap __class__].
    rewrite delete_take_drop, take_app_length, drop_ge, app_nil_r
      by (rewrite length_app; simpl; lia).
    by destruct s as [h [c l]].
  - apply fits_ssize_in. unfold ssize_min, ssize_max. lia.
  - apply list_index_last.
  - cbn [self data]. by rewrite lookup_app_r, Nat.sub_diag by lia.
Qed.

(** X11: [insert] at the same index undoes [pop]: popping the element at a
    position and inserting it back there leaves the store exactly as it
    was, for an element that is valid for the schema. *)
Theorem X11_pop_insert_round_trip (j : nat) (v : value) (s : store) :
  data (self s) !! j = Some v ->
  _validate_one_doc CT v s = (s, Returned v) ->
  bind (pop (Z.of_nat j)) (insert CT (Z.of_nat j)) s = (s, Returned tt).
Proof.
  intros Hj Hv. pose proof (lookup_lt_Some _ _ _ Hj) as Hlt.
  assert (Hidx : list_index (Z.of_nat j) (data (self s)) = Some j).
  { unfold list_index. cbv zeta.
    destruct (Z.ltb_spec (Z.of_nat j) 0); [lia|].
    destruct (Z.ltb_spec (Z.of_nat j) 0); [lia|].
    destruct (Z.leb_spec (Z.of_nat (length (data (self s)))) (Z.of_nat j));
      [lia|]. simpl. by rewrite Nat2Z.id. }
  destruct s as [h [c l]]. simpl in *.
  assert (Hpop : pop (Z.of_nat j) (Store h (MkDocArray c l))
                 = (Store h (MkDocArray c (delete j l)), Returned v)).
  { apply pop_at; [|done|done]. apply fits_ssize_within. simpl. lia. }
  rewrite (bind_returned _ _ _ _ _ Hpop).
  assert (Hv' : _validate_one_doc CT v (Store h (MkDocArray c (delete j l)))
                = (Store h (MkDocArray c (delete j l)), Returned v)).
  { rewrite (validate_data_indep CT v h c l (delete j l)). by rewrite Hv. }
  rewrite (insert_run CT _ _ _ _ _ Hv'). simpl.
  assert (Hlen : length (delete j l) = (length l - 1)%nat)
    by (apply length_delete; eexists; exact Hj).
  rewrite list_insert_at_position by lia.
  do 3 f_equal.
  rewrite delete_take_drop.
  rewrite take_app_length' by (rewrite length_take; lia).
  rewrite drop_app_length' by (rewrite length_take; lia).
  by apply take_drop_middle.
Qed.

(** X12: [remove] takes out the first element equal to its argument and no
    other: the elements before it, none of which is equal, and the
    elements after it, equal or not, stay in their order; when no element
    is equal it raises [ValueError] and leaves the store as it was. *)
Theorem X12_remove_first_match (x y : value) (l1 l2 : list value)
    (s : store) :
  (data (self s) = l1 ++ y :: l2 ->
   Forall (fun z => py_eq (heap s) z x = false) l1 ->
   py_eq (heap s) y x = true ->
   remove py_eq x s =
     (Store (heap s) (MkDocArray (__class__ (self s)) (l1 ++ l2)),
      Returned tt)) /\
  (Forall (fun z => py_eq (heap s) z x = false) (data (self s)) ->
   remove py_eq x s =
     (s, Raised (ValueError [FLit "list.remove(x): x not in list"]))).
Proof.
  split.
  - intros Hd Hl1 Hy. unfold remove. unfold_M. rewrite Hd.
    assert (Hr : remove_first py_eq (heap s) x (l1 ++ y :: l2)
                 = Some (l1 ++ l2)).
    { clear Hd. induction Hl1 as [|z l1 Hz _ IH]; simpl.
      - by rewrite Hy.
      - by rewrite Hz, IH. }
    by rewrite Hr.
  - intros Hall. unfold remove. unfold_M.
    assert (Hr : remove_first py_eq (heap s) x (data (self s)) = None).
    { induction Hall as [|z l Hz _ IH]; simpl; [done|]. by rewrite Hz, IH. }
    by rewrite Hr.
Qed.

(** X13: [reverse] never raises, touches no object, and done twice leaves
    the store exactly as it was. *)
Theorem X13_reverse_involution (s : store) :
  reverse s = (Store (heap s) (MkDocArray (__class__ (self s))
                                 (rev (data (self s)))), Returned tt) /\
  bind reverse (fun _ => reverse) s = (s, Returned tt).
Proof.
  split; [done|]. unfold reverse. unfold_M. simpl.
  rewrite rev_involutive. by destruct s as [h [c l]].
Qed.

End More_list_ops.

(** ** Sorting *)

Lemma rev_reverse {A} (l : list A) : rev l = list.reverse l.
Proof. apply rev_alt. Qed.

Lemma insert_by_key_perm kx l : insert_by_key kx l ≡ₚ kx :: l.
Proof.
  induction l as [|ky l IH]; simpl; [done|].
  destruct (fst kx <=? fst ky); [done|].
  rewrite IH. apply Permutation_swap.
Qed.

Lemma sort_by_key_perm l : sort_by_key l ≡ₚ l.
Proof.
  induction l as [|kx l IH]; simpl; [done|].
  by rewrite insert_by_key_perm, IH.
Qed.

Lemma insert_by_key_sorted kx l :
  StronglySorted (fun p q => fst p <= fst q) l ->
  StronglySorted (fun p q => fst p <= fst q) (insert_by_key kx l).
Proof.
  induction l as [|ky l IH]; simpl; intros Hl.
  - repeat constructor.
  - apply StronglySorted_cons in Hl as [Hky Hl].
    destruct (Z.leb_spec (fst kx) (fst ky)).
    + constructor; [by constructor|]. constructor; [done|].
      eapply Forall_impl; [exact Hky|]. simpl. intros; lia.
    + constructor; [by apply IH|].
      apply insert_by_key_Forall; [lia | done].
Qed.

Lemma sort_by_key_sorted l :
  StronglySorted (fun p q => fst p <= fst q) (sort_by_key l).
Proof.
  induction l as [|kx l IH]; simpl; [constructor|].
  by apply insert_by_key_sorted.
Qed.

(** The sort is stable: elements of equal key keep their order. *)
Lemma insert_by_key_filter (z : Z) kx l :
  filter (fun p : Z * value => fst p = z) (insert_by_key kx l) =
  filter (fun p : Z * value => fst p = z) (kx :: l).
Proof.
  induction l as [|ky l IH]; simpl; [done|].
  destruct (Z.leb_spec (fst kx) (fst ky)); [done|].
  rewrite (filter_cons _ ky), IH, !filter_cons.
  repeat case_decide; try done; lia.
Qed.

Lemma sort_by_key_filter (z : Z) l :
  filter (fun p : Z * value => fst p = z) (sort_by_key l) =
  filter (fun p : Z * value => fst p = z) l.
Proof.
  induction l as [|kx l IH]; simpl; [done|].
  by rewrite insert_by_key_filter, !filter_cons, IH.
Qed.

Section Sorted_values.

Context (k : value -> Z).

Lemma zip_keys (l : list value) :
  zip (map k l) l = map (fun v => (k v, v)) l.
Proof. induction l as [|v l IH]; simpl; [done|]. by rewrite IH. Qed.

Lemma tagged_snd (l : list value) : map snd (map (fun v => (k v, v)) l) = l.
Proof. induction l as [|v l IH]; simpl; [done|]. by rewrite IH. Qed.

Lemma tagged_Forall (l : list value) :
  Forall (fun p : Z * value => fst p = k (snd p))
    (map (fun v => (k v, v)) l).
Proof. apply Forall_map, Forall_true. done. Qed.

Lemma filter_tagged (z : Z) (X : list (Z * value)) :
  Forall (fun p => fst p = k (snd p)) X ->
  filter (fun v => k v = z) (map snd X) =
  map snd (filter (fun p : Z * value => fst p = z) X).
Proof.
  induction 1 as [|p X Hp _ IH]; [done|].
  cbn [map]. rewrite !filter_cons, IH.
  repeat case_decide; try done; congruence.
Qed.

Lemma sorted_tagged (X : list (Z * value)) :
  Forall (fun p => fst p = k (snd p)) X ->
  StronglySorted (fun p q => fst p <= fst q) X ->
  StronglySorted (fun a b => k a <= k b) (map snd X).
Proof.
  induction 1 as [|p X Hp HX IH]; intros HS; [constructor|].
  apply StronglySorted_cons in HS as [Hall HS]. cbn [map].
  constructor; [by apply IH|].
  apply Forall_map. apply Forall_lookup. intros i q Hq. simpl.
  rewrite <- Hp, <- (Forall_lookup_1 _ _ _ _ HX Hq).
  by apply (Forall_lookup_1 _ _ _ _ Hall Hq).
Qed.

(** What sorting the tagged elements gives, on the elements themselves. *)
Lemma sorted_values_spec (l : list value) :
  let l' := map snd (sort_by_key (zip (map k l) l)) in
  l' ≡ₚ l /\
  StronglySorted (fun a b => k a <= k b) l' /\
  forall z, filter (fun v => k v = z) l' = filter (fun v => k v = z) l.
Proof.
  intros l'. unfold l'. rewrite zip_keys.
  assert (HF : Forall (fun p : Z * value => fst p = k (snd p))
                 (sort_by_key (map (fun v => (k v, v)) l)))
    by apply sort_by_key_Forall, tagged_Forall.
  split; [|split].
  - rewrite sort_by_key_perm. by rewrite tagged_snd.
  - apply sorted_tagged; [done | apply sort_by_key_sorted].
  - intros z. rewrite (filter_tagged z _ HF), sort_by_key_filter.
    rewrite <- (filter_tagged z _ (tagged_Forall l)). by rewrite tagged_snd.
Qed.

Lemma list_comp_pure (key : value -> M Z) (l : list value) s :
  (forall v st, key v st = (st, Returned (k v))) ->
  list_comp key l s = (s, Returned (map k l)).
Proof.
  intros Hkey. induction l as [|v l IH]; simpl; [done|].
  rewrite (bind_returned _ _ _ _ _ (Hkey v s)).
  by rewrite (bind_returned _ _ _ _ _ IH).
Qed.

(** X14: [sort] with a key that only computes orders the container by key:
    it never raises and touches no object; afterwards the container holds
    the same elements, in ascending order of key, and elements of equal
    key are in the order they were in (the sort is stable). *)
Theorem X14_sort_ascending (key : value -> M Z) (s : store) :
  (forall v st, key v st = (st, Returned (k v))) ->
  exists l',
    sort key false s =
      (Store (heap s) (MkDocArray (__class__ (self s)) l'), Returned tt) /\
    l' ≡ₚ data (self s) /\
    StronglySorted (fun a b => k a <= k b) l' /\
    forall z, filter (fun v => k v = z) l'
              = filter (fun v => k v = z) (data (self s)).
Proof.
  intros Hkey. eexists. split.
  { unfold sort. unfold bind at 1. unfold get_self at 1.
    rewrite (bind_returned _ _ _ _ _ (list_comp_pure key _ s Hkey)).
    reflexivity. }
  apply sorted_values_spec.
Qed.

(** X15: with [reverse=True] the order is descending, and the sort is still
    stable: elements of equal key stay in the order they were in. *)
Theorem X15_sort_descending (key : value -> M Z) (s : store) :
  (forall v st, key v st = (st, Returned (k v))) ->
  exists l',
    sort key true s =
      (Store (heap s) (MkDocArray (__class__ (self s)) l'), Returned tt) /\
    l' ≡ₚ data (self s) /\
    StronglySorted (fun a b => k b <= k a) l' /\
    forall z, filter (fun v => k v = z) l'
              = filter (fun v => k v = z) (data (self s)).
Proof.
  intros Hkey. eexists. split.
  { unfold sort. unfold bind at 1. unfold get_self at 1.
    rewrite (bind_returned _ _ _ _ _ (list_comp_pure key _ s Hkey)).
    reflexivity. }
  cbn [self data].
  assert (Heq : map snd (rev (sort_by_key
                  (rev (zip (map k (data (self s))) (data (self s))))))
                = rev (map snd (sort_by_key
                    (zip (map k (rev (data (self s))))
                       (rev (data (self s))))))).
  { rewrite map_rev. do 3 f_equal. rewrite !zip_keys. by rewrite map_rev. }
  rewrite Heq. clear Heq.
  destruct (sorted_values_spec (rev (data (self s)))) as (Hp & Hs & Hf).
  set (X := map snd (sort_by_key (zip (map k (rev (data (self s))))
                                       (rev (data (self s)))))) in *.
  split; [|split].
  - rewrite rev_reverse, reverse_Permutation, Hp.
    by rewrite rev_reverse, reverse_Permutation.
  - clear Hp Hf. induction Hs as [|a X' HX' IH Ha]; simpl; [constructor|].
    apply StronglySorted_app_2; [|done|repeat constructor].
    intros x1 x2 Hx1 ->%list_elem_of_singleton.
    rewrite rev_reverse, elem_of_reverse in Hx1.
    by apply (proj1 (Forall_forall _ _) Ha).
  - intros z. rewrite rev_reverse, filter_reverse, Hf.
    rewrite rev_reverse, filter_reverse. apply reverse_involutive.
Qed.


End Sorted_values.

(** ** What [extend] has appended *)

Section More_extend_returned.

Context (CT : gmap cname class_decl).

(** X19: what [extend] has done when it returns: the container is its old
    elements followed by one element for each element of the input, in
    order: the same reference for a value that is not a mapping, and for
    a mapping a new record at an address no object had; no object of the
    heap was removed or changed. *)
Theorem X19_extend_returned (docs : list value) (s s' : store) :
  extend CT (IList docs) s = (s', Returned tt) ->
  exists vs,
    data (self s') = data (self s) ++ vs /\
    __class__ (self s') = __class__ (self s) /\
    heap s ⊆ heap s' /\
    Forall2 (fun d v =>
               (is_dict d = false -> v = d) /\
               (is_dict d = true ->
                  exists a, v = VRef a /\ heap s !! a = None /\
                            is_Some (heap s' !! a)))
            docs vs.
Proof.
  intros H. apply (extend_returned_spec CT) in H as (vs & Hd & Hc & Hh & HF).
  exists vs. split; [done|]. split; [done|]. split; [done|].
  eapply Forall2_impl; [exact HF|]. simpl. intros d v [Hn Hdic].
  split; [done|]. intros Hdict.
  destruct (Hdic Hdict) as (a & o & -> & Hnone & Ho & _). eauto.
Qed.

End More_extend_returned.

(** ** The invariant and failures *)

Section Invariant_failures.

Context (CT : gmap cname class_decl).
Context (py_eq : gmap addr obj -> value -> value -> bool).
Context (T : cname).
Context (concrete : issubclass CT T "AnyDoc" = false).

Lemma extend_loop_inv_raised (docs : list (M value)) s s' e :
  Forall benign docs -> inv_of CT T s ->
  for_validate_docs CT docs (fun _ v => data_append v) tt s = (s', Raised e) ->
  inv_of CT T s'.
Proof.
  intros Hb. revert s. induction Hb as [|next docs Hnext _ IH];
    intros s [HT Hinv]; simpl; [done|].
  intros H.
  apply bind_inv in H as [(s1 & doc & Hdoc & H) | (e' & Hdoc & _)].
  2: { apply Hnext in Hdoc as [Hs1 Hh1]. split; [congruence|].
       rewrite Hs1. by eapply instances_kept. }
  apply Hnext in Hdoc as [Hs1 Hh1].
  assert (Hinv1 : inv_of CT T s1).
  { split; [congruence|]. rewrite Hs1. by eapply instances_kept. }
  apply bind_inv in H as [(s2 & v & Hv & H) | (e' & Hv & _)].
  2: { apply validate_spec in Hv as (_ & _ & He & _).
       by rewrite (He e' eq_refl). }
  apply (validate_inv CT T concrete) in Hv as [[HT2 Hinv2] Hv]; [|done].
  rewrite (bind_returned _ _ _ _ _ (data_append_run v s2)) in H.
  apply IH in H; [done|]. split; [done|]. simpl.
  apply Forall_app. split; [done|]. by constructor.
Qed.

Lemma run_op_inv_raised (o : op) s s' e :
  benign_op o -> inv_of CT T s ->
  run_op CT py_eq o s = (s', Raised e) -> inv_of CT T s'.
Proof.
  intros Hb Hinv. destruct o as [doc|docs|i doc|i|x| |key reversed]; simpl.
  - intros H. unfold append in H.
    apply bind_inv in H as [(s1 & v & _ & [=]) | (e' & Hv & _)].
    apply validate_spec in Hv as (_ & _ & He & _). by rewrite (He e' eq_refl).
  - unfold extend. apply extend_loop_inv_raised; [|done].
    by apply benign_iter; destruct docs.
  - intros H. unfold insert in H.
    apply bind_inv in H as [(s1 & v & Hv & H) | (e' & Hv & _)].
    + apply (validate_inv CT T concrete) in Hv as [Hinv1 _]; [|done].
      unfold_M.
      destruct (list_insert_at i v (data (self s1))); [done|].
      by injection H as <- _.
    + apply validate_spec in Hv as (_ & _ & He & _).
      by rewrite (He e' eq_refl).
  - intros H.
    apply bind_inv in H as [(s1 & v & _ & [=]) | (e' & Hv & _)].
    unfold pop in Hv. unfold_M.
    destruct (fits_ssize i (data (self s))); [|by injection Hv as <- _].
    destruct (list_index i (data (self s))) as [j|];
      [destruct (data (self s) !! j)|]; try done; by injection Hv as <- _.
  - intros H. unfold remove in H. unfold_M.
    destruct (remove_first py_eq (heap s) x (data (self s)));
      [done | by injection H as <- _].
  - done.
  - intros H. destruct Hinv as [HT Hinv]. unfold sort in H.
    unfold bind at 1 in H. unfold get_self at 1 in H.
    apply bind_inv in H as [(s1 & keys & _ & [=]) | (e' & Hk & _)].
    apply (list_comp_benign _ _ _ _ _ Hb) in Hk as [Hs1 Hh1].
    split; [congruence|]. rewrite Hs1. by eapply instances_kept.
Qed.

End Invariant_failures.

(** X20: a failure does not break the invariant: in a container bound to a
    concrete record type whose elements are instances of it, after any
    sequence of [append], [extend], [insert], [pop], [remove], [reverse]
    and [sort], whether it completes or stops at an operation that raises,
    every element is still an instance of the record type; so are the
    elements a failing [extend] has appended. *)
Theorem X20_invariant_survives_failure (CT : gmap cname class_decl)
    (py_eq : gmap addr obj -> value -> value -> bool) (ops : list op)
    (s s' : store) (r : outcome unit) :
  issubclass CT (_document_type (__class__ (self s))) "AnyDoc" = false ->
  Forall (fun v => isinstance CT (heap s) v
                     (_document_type (__class__ (self s))) = true)
         (data (self s)) ->
  Forall benign_op ops ->
  run_ops CT py_eq ops s = (s', r) ->
  _document_type (__class__ (self s')) = _document_type (__class__ (self s)) /\
  Forall (fun v => isinstance CT (heap s') v
                     (_document_type (__class__ (self s))) = true)
         (data (self s')).
Proof.
  intros Hc Hall Hb.
  set (T := _document_type (__class__ (self s))) in *.
  assert (Hinv : inv_of CT T s) by done.
  clearbody T. revert s Hall Hinv r.
  induction Hb as [|o ops Ho _ IH]; intros s _ Hinv r; simpl.
  - by intros [= <- _].
  - intros H.
    apply bind_inv in H as [(s1 & [] & Ho1 & H) | (e & Ho1 & _)].
    + apply (run_op_inv CT py_eq T Hc) in Ho1; [|done|done].
      apply (IH s1) in H; [done| |done]. by destruct Ho1.
    + by apply (run_op_inv_raised CT py_eq T Hc) in Ho1.
Qed.

(** ** The further properties on the sample program *)

(** A mapping converted to an image, and the image validated again. *)
Lemma X1_witness :
  _validate_one_doc Sample.CT (VRef 5)
    (fst (_validate_one_doc Sample.CT Sample.a_mapping (Sample.images [])))
  = (fst (_validate_one_doc Sample.CT Sample.a_mapping (Sample.images [])),
     Returned (VRef 5)).
Proof.
  apply (X1_validate_idempotent Sample.CT Sample.a_mapping (VRef 5)
           (Sample.images [])).
  vm_compute. reflexivity.
Defined.

(** The conversion of a mapping keeps the container and the objects. *)
Lemma X2_witness :
  self (fst (_validate_one_doc Sample.CT Sample.a_mapping (Sample.images [])))
    = self (Sample.images []) /\
  heap (Sample.images [])
    ⊆ heap (fst (_validate_one_doc Sample.CT Sample.a_mapping
                   (Sample.images []))).
Proof.
  destruct (X2_validate_frame Sample.CT Sample.a_mapping (Sample.images [])
              (fst (_validate_one_doc Sample.CT Sample.a_mapping
                      (Sample.images [])))
              (snd (_validate_one_doc Sample.CT Sample.a_mapping
                      (Sample.images []))))
    as (Hs & Hh & _).
  - apply surjective_pairing.
  - split; [exact Hs | exact Hh].
Defined.

(** The same mapping converted twice gives two records. *)
Lemma X3_witness : VRef 5 <> VRef 6.
Proof.
  refine (proj1 (X3_converted_records_distinct Sample.CT
                   [("url", VStr "c.png")] [("url", VStr "c.png")]
                   (VRef 5) (VRef 6) (Sample.images [])
                   (fst (_validate_one_doc Sample.CT Sample.a_mapping
                           (Sample.images [])))
                   (fst (_validate_one_doc Sample.CT Sample.a_mapping
                           (fst (_validate_one_doc Sample.CT
                                   Sample.a_mapping (Sample.images [])))))
                   _ _)); vm_compute; reflexivity.
Defined.

(** Appending an integer to a container of images. *)
Lemma X4_witness :
  append Sample.CT (VInt 0) (Sample.images [VRef 1])
    = (Sample.images [VRef 1],
       Raised (ValueError [FStr (VInt 0); FLit " is not a "; FClass "Image"]))
  /\ Sample.images [VRef 1] = Sample.images [VRef 1].
Proof.
  assert (H : append Sample.CT (VInt 0) (Sample.images [VRef 1])
    = (Sample.images [VRef 1],
       Raised (ValueError [FStr (VInt 0); FLit " is not a "; FClass "Image"])))
    by (vm_compute; reflexivity).
  split; [exact H|].
  exact (proj1 (proj1 (X4_append_insert_atomic Sample.CT (VInt 0) 0 _ _ _)
                  H)).
Defined.

(** Two images appended to a container of one. *)
Lemma X7_witness :
  extend Sample.CT (IList [VRef 1; VRef 2]) (Sample.images [VRef 2])
    = (Sample.images [VRef 2; VRef 1; VRef 2], Returned tt).
Proof.
  refine (proj1 (X7_extend_valid_records Sample.CT [VRef 1; VRef 2]
                   (Sample.images [VRef 2]) _)).
  repeat (apply Forall_cons; split;
          [split; [reflexivity | right; vm_compute; reflexivity]|]).
  constructor.
Defined.

(** An index past the end. *)
Lemma X8_witness :
  insert Sample.CT 7 (VRef 2) (Sample.images [VRef 1])
    = append Sample.CT (VRef 2) (Sample.images [VRef 1]).
Proof.
  apply (proj1 (X8_insert_clamps Sample.CT 7 (VRef 2)
                  (Sample.images [VRef 1]))).
  simpl. unfold ssize_max. lia.
Defined.

(** An index past the end, and one that does not fit a [ssize_t]. *)
Lemma X9_witness :
  pop 1 (Sample.images [VRef 1]) = (Sample.images [VRef 1], Raised IndexError)
  /\ pop (2 ^ 64) (Sample.images [VRef 1])
     = (Sample.images [VRef 1], Raised OverflowError).
Proof.
  split.
  - apply (proj1 (proj2 (X9_pop_bounds 1 (Sample.images [VRef 1])))).
    + unfold ssize_min, ssize_max. lia.
    + simpl. lia.
  - apply (proj1 (X9_pop_bounds (2 ^ 64) (Sample.images [VRef 1]))).
    + unfold ssize_max. lia.
    + simpl. unfold ssize_max. lia.
Defined.

(** An image appended and popped. *)
Lemma X10_witness :
  bind (append Sample.CT (VRef 2)) (fun _ => pop (-1))
    (Sample.images [VRef 1])
  = (Sample.images [VRef 1], Returned (VRef 2)).
Proof.
  apply (X10_append_pop_round_trip Sample.CT (VRef 2)
           (Sample.images [VRef 1])).
  vm_compute. reflexivity.
Defined.

(** The middle element popped and inserted back. *)
Lemma X11_witness :
  bind (pop (Z.of_nat 1)) (insert Sample.CT (Z.of_nat 1))
    (Sample.images [VRef 1; VRef 2; VRef 1])
  = (Sample.images [VRef 1; VRef 2; VRef 1], Returned tt).
Proof.
  apply (X11_pop_insert_round_trip Sample.CT 1 (VRef 2)
           (Sample.images [VRef 1; VRef 2; VRef 1])).
  - reflexivity.
  - vm_compute. reflexivity.
Defined.

(** Of two equal elements the first is removed. *)
Lemma X12_witness :
  remove Sample.py_eq (VRef 2) (Sample.images [VRef 1; VRef 2; VRef 2])
    = (Sample.images [VRef 1; VRef 2], Returned tt).
Proof.
  apply (proj1 (X12_remove_first_match Sample.py_eq (VRef 2) (VRef 2)
                  [VRef 1] [VRef 2]
                  (Sample.images [VRef 1; VRef 2; VRef 2]))).
  - reflexivity.
  - repeat constructor.
  - reflexivity.
Defined.

(** Three images sorted by address. *)
Lemma X14_witness :
  exists l',
    sort Sample.by_rank false (Sample.images [VRef 2; VRef 1; VRef 2]) =
      (Sample.images l', Returned tt) /\
    l' ≡ₚ [VRef 2; VRef 1; VRef 2] /\
    StronglySorted (fun a b => Sample.rank a <= Sample.rank b) l'.
Proof.
  destruct (X14_sort_ascending Sample.rank Sample.by_rank
              (Sample.images [VRef 2; VRef 1; VRef 2]))
    as (l' & Hrun & Hp & Hs & _).
  { intros v st. reflexivity. }
  exists l'. split; [exact Hrun|]. split; [exact Hp | exact Hs].
Defined.

(** Three images sorted by address, descending. *)
Lemma X15_witness :
  exists l',
    sort Sample.by_rank true (Sample.images [VRef 1; VRef 2; VRef 1]) =
      (Sample.images l', Returned tt) /\
    l' ≡ₚ [VRef 1; VRef 2; VRef 1] /\
    StronglySorted (fun a b => Sample.rank b <= Sample.rank a) l'.
Proof.
  destruct (X15_sort_descending Sample.rank Sample.by_rank
              (Sample.images [VRef 1; VRef 2; VRef 1]))
    as (l' & Hrun & Hp & Hs & _).
  { intros v st. reflexivity. }
  exists l'. split; [exact Hrun|]. split; [exact Hp | exact Hs].
Defined.


(** An image and a mapping appended by [extend]. *)
Lemma X19_witness :
  exists vs,
    data (self (fst (extend Sample.CT (IList [VRef 1; Sample.a_mapping])
                       (Sample.images [VRef 2]))))
      = data (self (Sample.images [VRef 2])) ++ vs /\
    length vs = 2%nat.
Proof.
  destruct (X19_extend_returned Sample.CT [VRef 1; Sample.a_mapping]
              (Sample.images [VRef 2])
              (fst (extend Sample.CT (IList [VRef 1; Sample.a_mapping])
                      (Sample.images [VRef 2]))))
    as (vs & Hd & _ & _ & HF).
  - vm_compute. reflexivity.
  - exists vs. split; [exact Hd|]. symmetry. exact (Forall2_length _ _ _ HF).
Defined.

(** A sequence of operations whose [extend] fails on its second element. *)
Lemma X20_witness :
  snd (run_ops Sample.CT Sample.py_eq Sample.failing_ops
         (Sample.images [VRef 1]))
    = Raised (ValueError [FStr (VInt 0); FLit " is not a "; FClass "Image"])
  /\
  Forall (fun v => isinstance Sample.CT
                     (heap (fst (run_ops Sample.CT Sample.py_eq
                                   Sample.failing_ops
                                   (Sample.images [VRef 1]))))
                     v "Image" = true)
    (data (self (fst (run_ops Sample.CT Sample.py_eq Sample.failing_ops
                        (Sample.images [VRef 1]))))).
Proof.
  split; [vm_compute; reflexivity|].
  refine (proj2 (X20_invariant_survives_failure Sample.CT Sample.py_eq
                   Sample.failing_ops (Sample.images [VRef 1])
                   (fst (run_ops Sample.CT Sample.py_eq Sample.failing_ops
                           (Sample.images [VRef 1])))
                   (snd (run_ops Sample.CT Sample.py_eq Sample.failing_ops
                           (Sample.images [VRef 1])))
                   _ _ _ _)).
  - vm_compute. reflexivity.
  - repeat (apply Forall_cons; split; [vm_compute; reflexivity|]).
    constructor.
  - unfold Sample.failing_ops.
    repeat (apply Forall_cons; split; [exact I|]). constructor.
  - apply surjective_pairing.
Defined.
